(** * river.expert.bandit: epsilon-greedy and UCB model-selection bandits

    A shallow embedding of [src/river/expert/bandit.py].

    Conventions of the embedding.
    - Python [float] / [np.float] values are read as real numbers ([R]): the
      statements below are about the arithmetic the code performs, not about
      binary64 rounding.
    - Python [int] / [np.int] counters are unbounded integers ([Z]); arm
      indices and lengths are [nat].
    - The object [self] is a record threaded through a state-and-error monad
      ([Cmd]); the calls and updates of [predict_one] and [learn_one] also
      append an [Event] to a trace, so that their order can be stated.
    - [np.random] is an explicit argument ([Rng]): the value [rand()] returns
      and the index [choice] returns for a given population size. *)

From Stdlib Require Import Reals Lra Lia ZArith Bool.
From stdpp Require Import base list.

Local Open Scope Z_scope.

(** ** Exceptions and results *)

Inductive exn : Type :=
| ValueError
| TypeError
| IndexError
| AttributeError.

Inductive result (A : Type) : Type :=
| Ok (a : A)
| Raise (e : exn).
Arguments Ok {A} a.
Arguments Raise {A} e.

(** The spec's error taxonomy: what it calls a ConfigurationError is, in the
    source, a [ValueError] or a [TypeError] raised by a constructor or by
    [add_models]. *)
Definition ConfigurationError (e : exn) : Prop :=
  e = ValueError \/ e = TypeError.

(** ** numpy helpers *)

Module np.

(** [np.argmax a]: index of the first maximal element; raises on an empty
    array. [scan] walks the array keeping the best index seen so far and
    replaces it only by a strictly greater element. *)
Fixpoint argmax_scan (best_i : nat) (best : R) (i : nat) (a : list R) : nat :=
  match a with
  | [] => best_i
  | x :: a' =>
      if Rlt_dec best x then argmax_scan i x (S i) a'
      else argmax_scan best_i best (S i) a'
  end.

Definition argmax (a : list R) : result nat :=
  match a with
  | [] => Raise ValueError
  | x :: a' => Ok (argmax_scan 0%nat x 1%nat a')
  end.

(** [np.zeros n]. *)
Definition zeros {A} (zero : A) (n : nat) : list A := replicate n zero.

(** [np.where(mask)[0]]: the indices at which [mask] holds, increasing. *)
Fixpoint where_from (i : nat) (mask : list bool) : list nat :=
  match mask with
  | [] => []
  | b :: mask' =>
      if b then i :: where_from (S i) mask' else where_from (S i) mask'
  end.

Definition where_ (mask : list bool) : list nat := where_from 0%nat mask.

(** Python's [any]. *)
Definition any (mask : list bool) : bool := existsb (fun b => b) mask.

(** Python's [sum] over an integer array. *)
Definition sum (a : list Z) : Z := foldr Z.add 0 a.

End np.

(** ** The random source *)

Record Rng : Type := {
  rand : R;               (* the value [np.random.rand()] returns *)
  choice : nat -> nat     (* the index [np.random.choice] draws in a population of the given size *)
}.

(** What numpy guarantees of the draws: [rand()] lies in [0, 1), and a draw in
    a population of [n > 0] elements is an index below [n]. *)
Definition rng_ok (g : Rng) : Prop :=
  (0 <= rand g < 1)%R /\ forall n, (0 < n)%nat -> (choice g n < n)%nat.

Module random.

(** [np.random.choice(n)] for an integer [n]. *)
Definition choice_int (g : Rng) (n : nat) : result nat :=
  if decide (n = 0%nat) then Raise ValueError else Ok (choice g n).

(** [np.random.choice(a)] for an array [a]. *)
Definition choice_arr (g : Rng) (a : list nat) : result nat :=
  match a !! choice g (length a) with
  | Some x => Ok x
  | None => Raise ValueError
  end.

End random.


(** ** External collaborators

    The wrapped models, the metric and the reward scaler are river objects
    that the bandit only reaches through a few methods. [predict_one] and
    [_eval] are read-only in river; the others return the updated object. *)

Class Collaborators : Type := {
  X : Type;                                  (* features *)
  Y : Type;                                  (* targets and predictions *)
  Model : Type;
  Metric : Type;
  Scaler : Type;
  model_predict_one : Model -> X -> Y;
  model_learn_one : Model -> X -> Y -> Model;
  metric_update : Metric -> Y -> Y -> Metric;     (* y_pred, y_true *)
  metric_eval : Metric -> Y -> Y -> R;            (* [_eval] *)
  bigger_is_better : Metric -> bool;
  works_with : Metric -> Model -> bool;
  scaler_learn_one : Scaler -> R -> Scaler;       (* on the dict {"metric": v} *)
  scaler_transform_one : Scaler -> R -> R;        (* its "metric" entry *)
  StandardScaler : Scaler                         (* [preprocessing.StandardScaler()] *)
}.

(** ** The object and the monad of its methods *)

(** What one call does to the outside world, in order. *)
Inductive Event : Type :=
| EvPullArm (arm : nat)                   (* [_pull_arm] returned [arm] *)
| EvPredict (arm : nat)                   (* [chosen_model.predict_one(x)] *)
| EvMetricUpdate                          (* [self.metric.update] *)
| EvModelLearn (arm : nat)                (* [chosen_model.learn_one(x, y)] *)
| EvScalerLearn                           (* [self.reward_scaler.learn_one] *)
| EvScalerTransform                       (* [self.reward_scaler.transform_one] *)
| EvIterIncr (n_iter : Z)                 (* [self._n_iter += 1], new value *)
| EvArmStats (arm : nat) (reward : R)     (* [_N] and [_average_reward] of [arm] updated *)
| EvUpdateArm (arm : nat) (reward : R)    (* [self._update_arm(arm, reward)] *)
| EvPrintInfo
| EvStorePercentage
| EvStoreMetric.

Section Object.
Context `{Collaborators}.

(** The attributes [Bandit.__init__] sets, and [ext] for those a subclass
    adds. [metric_values] and [store_percentage_pulled] only exist in Python
    when the matching flag is set; here they are then the empty list. *)
Record Self (E : Type) : Type := mkSelf {
  models : list Model;
  reward_scaler : option Scaler;
  metric : Metric;
  print_every : option Z;
  save_metric_values : bool;
  metric_values : list R;
  save_percentage_pulled : bool;
  store_percentage_pulled : list (list R);
  _n_arms : nat;
  _n_iter : Z;
  _N : list Z;
  _average_reward : list R;
  ext : E
}.

Record World (E : Type) : Type := mkWorld {
  self : Self E;
  trace : list Event
}.

Definition Cmd (E A : Type) : Type := World E -> result (A * World E).

End Object.

Arguments mkSelf {_ E}.
Arguments models {_ E}.
Arguments reward_scaler {_ E}.
Arguments metric {_ E}.
Arguments print_every {_ E}.
Arguments save_metric_values {_ E}.
Arguments metric_values {_ E}.
Arguments save_percentage_pulled {_ E}.
Arguments store_percentage_pulled {_ E}.
Arguments _n_arms {_ E}.
Arguments _n_iter {_ E}.
Arguments _N {_ E}.
Arguments _average_reward {_ E}.
Arguments ext {_ E}.
Arguments mkWorld {_ E}.
Arguments self {_ E}.
Arguments trace {_ E}.

Section Monad.
Context `{Collaborators} {E : Type}.

Definition ret {A} (a : A) : Cmd E A := fun w => Ok (a, w).

Definition bind {A B} (c : Cmd E A) (k : A -> Cmd E B) : Cmd E B :=
  fun w => match c w with
           | Ok (a, w') => k a w'
           | Raise e => Raise e
           end.

Definition raise {A} (e : exn) : Cmd E A := fun _ => Raise e.

Definition lift {A} (r : result A) : Cmd E A :=
  fun w => match r with Ok a => Ok (a, w) | Raise e => Raise e end.

Definition get : Cmd E (Self E) := fun w => Ok (self w, w).

Definition modify (f : Self E -> Self E) : Cmd E unit :=
  fun w => Ok (tt, mkWorld (f (self w)) (trace w)).

Definition tell (ev : Event) : Cmd E unit :=
  fun w => Ok (tt, mkWorld (self w) (trace w ++ [ev])).

Definition when (b : bool) (c : Cmd E unit) : Cmd E unit :=
  if b then c else ret tt.

(** Attribute assignments. *)
Definition set_models (v : list Model) (s : Self E) : Self E :=
  mkSelf v (reward_scaler s) (metric s) (print_every s) (save_metric_values s)
    (metric_values s) (save_percentage_pulled s) (store_percentage_pulled s)
    (_n_arms s) (_n_iter s) (_N s) (_average_reward s) (ext s).

Definition set_reward_scaler (v : option Scaler) (s : Self E) : Self E :=
  mkSelf (models s) v (metric s) (print_every s) (save_metric_values s)
    (metric_values s) (save_percentage_pulled s) (store_percentage_pulled s)
    (_n_arms s) (_n_iter s) (_N s) (_average_reward s) (ext s).

Definition set_metric (v : Metric) (s : Self E) : Self E :=
  mkSelf (models s) (reward_scaler s) v (print_every s) (save_metric_values s)
    (metric_values s) (save_percentage_pulled s) (store_percentage_pulled s)
    (_n_arms s) (_n_iter s) (_N s) (_average_reward s) (ext s).

Definition set_metric_values (v : list R) (s : Self E) : Self E :=
  mkSelf (models s) (reward_scaler s) (metric s) (print_every s)
    (save_metric_values s) v (save_percentage_pulled s)
    (store_percentage_pulled s) (_n_arms s) (_n_iter s) (_N s)
    (_average_reward s) (ext s).

Definition set_store_percentage_pulled (v : list (list R)) (s : Self E) : Self E :=
  mkSelf (models s) (reward_scaler s) (metric s) (print_every s)
    (save_metric_values s) (metric_values s) (save_percentage_pulled s) v
    (_n_arms s) (_n_iter s) (_N s) (_average_reward s) (ext s).

Definition set_n_arms (v : nat) (s : Self E) : Self E :=
  mkSelf (models s) (reward_scaler s) (metric s) (print_every s)
    (save_metric_values s) (metric_values s) (save_percentage_pulled s)
    (store_percentage_pulled s) v (_n_iter s) (_N s) (_average_reward s) (ext s).

Definition set_n_iter (v : Z) (s : Self E) : Self E :=
  mkSelf (models s) (reward_scaler s) (metric s) (print_every s)
    (save_metric_values s) (metric_values s) (save_percentage_pulled s)
    (store_percentage_pulled s) (_n_arms s) v (_N s) (_average_reward s) (ext s).

Definition set_N (v : list Z) (s : Self E) : Self E :=
  mkSelf (models s) (reward_scaler s) (metric s) (print_every s)
    (save_metric_values s) (metric_values s) (save_percentage_pulled s)
    (store_percentage_pulled s) (_n_arms s) (_n_iter s) v (_average_reward s)
    (ext s).

Definition set_average_reward (v : list R) (s : Self E) : Self E :=
  mkSelf (models s) (reward_scaler s) (metric s) (print_every s)
    (save_metric_values s) (metric_values s) (save_percentage_pulled s)
    (store_percentage_pulled s) (_n_arms s) (_n_iter s) (_N s) v (ext s).

End Monad.

Definition set_ext `{Collaborators} {E F : Type} (v : F) (s : Self E) : Self F :=
  mkSelf (models s) (reward_scaler s) (metric s) (print_every s)
    (save_metric_values s) (metric_values s) (save_percentage_pulled s)
    (store_percentage_pulled s) (_n_arms s) (_n_iter s) (_N s)
    (_average_reward s) v.

Declare Scope cmd_scope.
Delimit Scope cmd_scope with cmd.
Notation "x <- c ;; k" := (bind c (fun x => k))
  (at level 20, c at level 99, k at level 200, only parsing) : cmd_scope.
Notation "c ;; k" := (bind c (fun _ => k))
  (at level 100, k at level 200, right associativity, only parsing) : cmd_scope.

(** Python truthiness of an optional number: [None] and zero are false. *)
Definition truthy_float (o : option R) : bool :=
  match o with
  | None => false
  | Some d => if Req_dec_T d 0 then false else true
  end.

Definition truthy_int (o : option Z) : bool :=
  match o with
  | None => false
  | Some n => negb (n =? 0)
  end.

(** What a caller may pass as [new_models] to [add_models]. *)
Inductive PyArg `{Collaborators} : Type :=
| PyList (l : list Model)
| PyTuple (l : list Model)
| PyModel (m : Model)
| PyNone.

(** ** class Bandit *)

Module Bandit.

(** The keyword arguments of [Bandit.__init__]. *)
Record kwargs `{Collaborators} : Type := {
  kw_models : list Model;
  kw_metric : Metric;
  kw_reward_scaler : option Scaler;
  kw_print_every : option Z;
  kw_save_metric_values : bool;
  kw_save_percentage_pulled : bool
}.

Section Init.
Context `{Collaborators}.

(** The loop of lines 29-32: the first model the metric does not work with
    raises. *)
Fixpoint check_models (m : Metric) (ms : list Model) : result unit :=
  match ms with
  | [] => Ok tt
  | model :: ms' =>
      if works_with m model then check_models m ms' else Raise ValueError
  end.

Definition __init__ (kw : kwargs) : result (Self unit) :=
  if (Z.of_nat (length (kw_models kw)) <=? 1) then Raise ValueError
  else
    match check_models (kw_metric kw) (kw_models kw) with
    | Raise e => Raise e
    | Ok _ =>
        let n_arms := length (kw_models kw) in
        Ok (mkSelf (kw_models kw) (kw_reward_scaler kw) (kw_metric kw)
              (kw_print_every kw)
              (kw_save_metric_values kw) []
              (kw_save_percentage_pulled kw) []
              n_arms 0 (np.zeros 0 n_arms) (np.zeros 0%R n_arms) tt)
    end.

End Init.

Section Methods.
Context `{Collaborators} {E : Type}.

(** The abstract methods, supplied by the subclass. *)
Variable _pull_arm : Rng -> Cmd E nat.
Variable _update_arm : nat -> R -> Cmd E unit.
Variable _pred_func : Model -> X -> Y.

Local Open Scope cmd_scope.

(** [self[i]]: the ensemble is a list of its models. *)
Definition __getitem__ (i : nat) : Cmd E Model :=
  s <- get ;;
  match models s !! i with
  | Some m => ret m
  | None => raise IndexError
  end.

Definition _best_model_idx : Cmd E nat :=
  s <- get ;; lift (np.argmax (_average_reward s)).

Definition best_model : Cmd E Model :=
  i <- _best_model_idx ;; __getitem__ i.

(** [self._N / sum(self._N)]. With a zero sum numpy yields nan entries (and a
    warning), where the division of [R] yields 0. *)
Definition percentage_pulled (s : Self E) : list R :=
  map (fun n => (IZR n / IZR (np.sum (_N s)))%R) (_N s).

Definition predict_one (g : Rng) (x : X) : Cmd E Y :=
  best_arm <- _pull_arm g ;;
  tell (EvPullArm best_arm) ;;
  m <- __getitem__ best_arm ;;
  tell (EvPredict best_arm) ;;
  ret (_pred_func m x).

Definition _compute_scaled_reward (y_pred y_true : Y) (update_scaler : bool)
  : Cmd E R :=
  s <- get ;;
  let metric_value := metric_eval (metric s) y_pred y_true in
  let metric_to_reward :=
    if bigger_is_better (metric s) then metric_value
    else (-1 * metric_value)%R in
  when update_scaler
    (s <- get ;;
     match reward_scaler s with
     | None => raise AttributeError
     | Some sc =>
         modify (set_reward_scaler (Some (scaler_learn_one sc metric_to_reward))) ;;
         tell EvScalerLearn
     end) ;;
  s <- get ;;
  match reward_scaler s with
  | None => raise AttributeError
  | Some sc =>
      tell EvScalerTransform ;;
      ret (scaler_transform_one sc metric_to_reward)
  end.

Definition _print_info : Cmd E unit := tell EvPrintInfo.

(** Lines 93-96 of [learn_one]: the counters and the running average of the
    chosen arm. An arm outside the arrays raises [IndexError], as numpy's
    indexing does. *)
Definition update_internals (chosen_arm : nat) (reward : R) : Cmd E unit :=
  modify (fun s => set_n_iter (_n_iter s + 1) s) ;;
  s <- get ;;
  tell (EvIterIncr (_n_iter s)) ;;
  match _N s !! chosen_arm with
  | None => raise IndexError
  | Some n => modify (set_N (<[chosen_arm := n + 1]> (_N s)))
  end ;;
  s <- get ;;
  match _N s !! chosen_arm, _average_reward s !! chosen_arm with
  | Some n, Some avg =>
      modify (set_average_reward
                (<[chosen_arm := (avg + (1 / IZR n) * (reward - avg))%R]>
                   (_average_reward s))) ;;
      tell (EvArmStats chosen_arm reward)
  | _, _ => raise IndexError
  end.

Definition learn_one (g : Rng) (x : X) (y : Y) : Cmd E unit :=
  chosen_arm <- _pull_arm g ;;
  tell (EvPullArm chosen_arm) ;;
  chosen_model <- __getitem__ chosen_arm ;;

  tell (EvPredict chosen_arm) ;;
  let y_pred := model_predict_one chosen_model x in
  modify (fun s => set_metric (metric_update (metric s) y_pred y) s) ;;
  tell EvMetricUpdate ;;
  modify (fun s => set_models
                     (<[chosen_arm := model_learn_one chosen_model x y]> (models s)) s) ;;
  tell (EvModelLearn chosen_arm) ;;

  reward <- _compute_scaled_reward y_pred y true ;;
  update_internals chosen_arm reward ;;

  tell (EvUpdateArm chosen_arm reward) ;;
  _update_arm chosen_arm reward ;;

  s <- get ;;
  when (truthy_int (print_every s))
    (match print_every s with
     | Some p => when (_n_iter s mod p =? 0) _print_info
     | None => ret tt
     end) ;;

  s <- get ;;
  when (save_percentage_pulled s)
    (modify (set_store_percentage_pulled
               (store_percentage_pulled s ++ [percentage_pulled s])) ;;
     tell EvStorePercentage) ;;

  s <- get ;;
  when (save_metric_values s)
    (modify (set_metric_values
               (metric_values s ++ [metric_eval (metric s) y_pred y])) ;;
     tell EvStoreMetric).

(** [isinstance(new_models, list)] holds of [PyList] only. *)
Definition add_models (new_models : PyArg) : Cmd E unit :=
  match new_models with
  | PyList l =>
      let length_new_models := length l in
      (* Careful, no validation of the model is done here (contrary to __init__) *)
      modify (fun s => set_models (models s ++ l) s) ;;
      modify (fun s => set_n_arms (_n_arms s + length_new_models) s) ;;
      modify (fun s => set_N (_N s ++ np.zeros 0 length_new_models) s) ;;
      modify (fun s => set_average_reward
                         (_average_reward s ++ np.zeros 0%R length_new_models) s)
  | _ => raise TypeError
  end.

End Methods.
End Bandit.

(** ** class EpsilonGreedyBandit *)

Module EpsilonGreedyBandit.

(** [_starting_epsilon] is only set when [epsilon_decay] is truthy. *)
Record attrs : Type := {
  epsilon : R;
  epsilon_decay : option R;
  _starting_epsilon : option R
}.

Section Methods.
Context `{Collaborators}.
Local Open Scope cmd_scope.

(** [if epsilon_decay:] and [if not self.reward_scaler:] are Python truth
    tests: a number is truthy unless it is zero, a scaler object is truthy,
    [None] is not. *)
Definition __init__ (epsilon : R) (epsilon_decay : option R)
    (kw : Bandit.kwargs) : result (Self attrs) :=
  match Bandit.__init__ kw with
  | Raise e => Raise e
  | Ok s =>
      let s := set_ext {| epsilon := epsilon;
                          epsilon_decay := epsilon_decay;
                          _starting_epsilon :=
                            if truthy_float epsilon_decay then Some epsilon
                            else None |} s in
      Ok (match reward_scaler s with
          | None => set_reward_scaler (Some StandardScaler) s
          | Some _ => s
          end)
  end.

Definition _pull_arm (g : Rng) : Cmd attrs nat :=
  s <- get ;;
  if Rgt_dec (rand g) (epsilon (ext s))
  then lift (np.argmax (_average_reward s))
  else lift (random.choice_int g (_n_arms s)).

Definition _update_arm (arm : nat) (reward : R) : Cmd attrs unit :=
  s <- get ;;
  if truthy_float (epsilon_decay (ext s)) then
    match _starting_epsilon (ext s), epsilon_decay (ext s) with
    | Some e0, Some d =>
        modify (set_ext {| epsilon := (e0 * exp (- IZR (_n_iter s) * d))%R;
                           epsilon_decay := epsilon_decay (ext s);
                           _starting_epsilon := _starting_epsilon (ext s) |})
    | _, _ => raise AttributeError
    end
  else ret tt.

End Methods.
End EpsilonGreedyBandit.

Module EpsilonGreedyRegressor.
Section Methods.
Context `{Collaborators}.

Definition _pred_func (model : Model) : X -> Y := model_predict_one model.

Definition predict_one : Rng -> X -> Cmd EpsilonGreedyBandit.attrs Y :=
  Bandit.predict_one EpsilonGreedyBandit._pull_arm _pred_func.

Definition learn_one : Rng -> X -> Y -> Cmd EpsilonGreedyBandit.attrs unit :=
  Bandit.learn_one EpsilonGreedyBandit._pull_arm EpsilonGreedyBandit._update_arm.

Definition add_models : PyArg -> Cmd EpsilonGreedyBandit.attrs unit :=
  Bandit.add_models.

End Methods.
End EpsilonGreedyRegressor.

(** ** class UCBBandit *)

Module UCBBandit.

Record attrs : Type := {
  delta : option R;
  explore_each_arm : Z
}.

Section Methods.
Context `{Collaborators}.
Local Open Scope cmd_scope.

Definition __init__ (delta : option R) (explore_each_arm : Z)
    (kw : Bandit.kwargs) : result (Self attrs) :=
  match Bandit.__init__ kw with
  | Raise e => Raise e
  | Ok s =>
      let out_of_range :=
        match delta with
        | None => false
        | Some d => if Rge_dec d 1 then true
                    else if Rle_dec d 0 then true else false
        end in
      if out_of_range then Raise ValueError
      else
        let s := set_ext {| delta := delta;
                            explore_each_arm := explore_each_arm |} s in
        Ok (match reward_scaler s with
            | None => set_reward_scaler (Some StandardScaler) s
            | Some _ => s
            end)
  end.

(** [np.sqrt(2 * np.log(x) / self._N)], elementwise. *)
Definition exploration_bonus (x : R) (N : list Z) : list R :=
  map (fun n => sqrt (2 * ln x / IZR n)) N.

(** [self._average_reward + exploration_bonus]. [if self.delta:] is a truth
    test: [None] and [0] take the UCB1 branch. The sum of two numpy arrays is
    elementwise; the two arrays have the same length in every object the
    methods build. Where numpy would yield inf or nan (a zero pull count, the
    logarithm of zero) the functions of [R] yield a number; the properties
    below are stated where this does not happen. *)
Definition upper_bound (s : Self attrs) : list R :=
  let bonus :=
    match delta (ext s) with
    | Some d =>
        if truthy_float (Some d) then exploration_bonus (1 / d) (_N s)
        else exploration_bonus (IZR (_n_iter s)) (_N s)
    | None => exploration_bonus (IZR (_n_iter s)) (_N s)
    end in
  zip_with Rplus (_average_reward s) bonus.

Definition _pull_arm (g : Rng) : Cmd attrs nat :=
  s <- get ;;
  let not_pulled_enough :=
    map (fun n => n <=? explore_each_arm (ext s)) (_N s) in
  if np.any not_pulled_enough then
    let never_pulled_arm := np.where_ not_pulled_enough in
    lift (random.choice_arr g never_pulled_arm)
  else
    lift (np.argmax (upper_bound s)).

Definition _update_arm (arm : nat) (reward : R) : Cmd attrs unit := ret tt.

End Methods.
End UCBBandit.

Module UCBRegressor.
Section Methods.
Context `{Collaborators}.

Definition _pred_func (model : Model) : X -> Y := model_predict_one model.

Definition predict_one : Rng -> X -> Cmd UCBBandit.attrs Y :=
  Bandit.predict_one UCBBandit._pull_arm _pred_func.

Definition learn_one : Rng -> X -> Y -> Cmd UCBBandit.attrs unit :=
  Bandit.learn_one UCBBandit._pull_arm UCBBandit._update_arm.

Definition add_models : PyArg -> Cmd UCBBandit.attrs unit :=
  Bandit.add_models.

End Methods.
End UCBRegressor.

(** ** Notions the statements use *)

(** [i] is the first index at which [a] attains its maximum. *)
Definition first_max (a : list R) (i : nat) : Prop :=
  exists m, a !! i = Some m
    /\ (forall j x, a !! j = Some x -> (x <= m)%R)
    /\ (forall j x, (j < i)%nat -> a !! j = Some x -> (x < m)%R).

Definition sum_R (l : list R) : R := foldr Rplus 0%R l.


(** The rewards that a history of (arm, reward) updates gave to [arm], oldest
    first. *)
Definition rewards_of (arm : nat) (us : list (nat * R)) : list R :=
  map snd (filter (fun u => fst u = arm) us).


(** The counters and averages as the constructor leaves them. *)
Definition fresh_stats `{Collaborators} {E : Type} (s : Self E) : Prop :=
  _N s = replicate (_n_arms s) 0
  /\ _average_reward s = replicate (_n_arms s) 0%R.

(** After the history [us], every arm's counter is the number of rewards it
    was given and its average times that number is their sum. *)
Definition stats_track `{Collaborators} {E : Type} (us : list (nat * R))
    (s : Self E) : Prop :=
  forall arm, (arm < _n_arms s)%nat ->
    _N s !! arm = Some (Z.of_nat (length (rewards_of arm us)))
    /\ exists avg, _average_reward s !! arm = Some avg
         /\ (avg * INR (length (rewards_of arm us)) = sum_R (rewards_of arm us))%R.

(** The reward [learn_one] computes when the chosen model is [m] and the
    scaler is [sc]: the metric is updated first, its value is negated unless
    bigger is better, the scaler learns that value and then transforms it. *)
Definition metric_to_reward `{Collaborators} {E : Type} (s : Self E)
    (m : Model) (x : X) (y : Y) : R :=
  let y_pred := model_predict_one m x in
  let mt := metric_update (metric s) y_pred y in
  if bigger_is_better mt then metric_eval mt y_pred y
  else (-1 * metric_eval mt y_pred y)%R.

Definition reward_of `{Collaborators} {E : Type} (s : Self E)
    (m : Model) (sc : Scaler) (x : X) (y : Y) : R :=
  scaler_transform_one (scaler_learn_one sc (metric_to_reward s m x y))
    (metric_to_reward s m x y).

(** The events every [learn_one] call produces, in order, when arm [arm] is
    chosen, the counter becomes [n_iter] and the reward is [reward]. *)
Definition cycle_events (arm : nat) (n_iter : Z) (reward : R) : list Event :=
  [EvPullArm arm; EvPredict arm; EvMetricUpdate; EvModelLearn arm;
   EvScalerLearn; EvScalerTransform; EvIterIncr n_iter;
   EvArmStats arm reward; EvUpdateArm arm reward].

(** The optional events at the end of a cycle on the object [s]: the print
    every [print_every] iterations and the two history buffers. *)
Definition bookkeeping_events `{Collaborators} {E : Type} (s : Self E)
  : list Event :=
  match print_every s with
  | Some p =>
      if negb (p =? 0) then
        if (_n_iter s + 1) mod p =? 0 then [EvPrintInfo] else []
      else []
  | None => []
  end
  ++ (if save_percentage_pulled s then [EvStorePercentage] else [])
  ++ (if save_metric_values s then [EvStoreMetric] else []).

(** What [EpsilonGreedyBandit._update_arm] leaves in the subclass attributes
    of [s]: with a truthy decay, epsilon is recomputed from the starting value
    and the iteration counter. *)
Definition eg_update_ext `{Collaborators} (s : Self EpsilonGreedyBandit.attrs)
  : EpsilonGreedyBandit.attrs :=
  match EpsilonGreedyBandit._starting_epsilon (ext s),
        EpsilonGreedyBandit.epsilon_decay (ext s) with
  | Some e0, Some d =>
      if truthy_float (Some d) then
        {| EpsilonGreedyBandit.epsilon := (e0 * exp (- IZR (_n_iter s) * d))%R;
           EpsilonGreedyBandit.epsilon_decay := Some d;
           EpsilonGreedyBandit._starting_epsilon := Some e0 |}
      else ext s
  | _, _ => ext s
  end.

(** The constructor sets [_starting_epsilon] whenever the decay is truthy. *)
Definition eg_attrs_ok (e : EpsilonGreedyBandit.attrs) : Prop :=
  truthy_float (EpsilonGreedyBandit.epsilon_decay e) = true ->
  EpsilonGreedyBandit._starting_epsilon e <> None.

(** The constructor only accepts a [delta] in the open interval (0, 1). *)
Definition ucb_attrs_ok (e : UCBBandit.attrs) : Prop :=
  forall d, UCBBandit.delta e = Some d -> (0 < d < 1)%R.

(** The worlds a caller can reach from a constructed object [s0] through the
    public methods, with random sources that behave as numpy's. *)
Inductive reachable `{Collaborators} {E : Type}
    (learn : Rng -> X -> Y -> Cmd E unit) (predict : Rng -> X -> Cmd E Y)
    (s0 : Self E) : World E -> Prop :=
| reach_init : reachable learn predict s0 (mkWorld s0 [])
| reach_learn w g x y w' :
    reachable learn predict s0 w -> rng_ok g ->
    learn g x y w = Ok (tt, w') -> reachable learn predict s0 w'
| reach_predict w g x y_pred w' :
    reachable learn predict s0 w -> rng_ok g ->
    predict g x w = Ok (y_pred, w') -> reachable learn predict s0 w'
| reach_add w a w' :
    reachable learn predict s0 w ->
    Bandit.add_models a w = Ok (tt, w') -> reachable learn predict s0 w'.

(** The arms UCB still has to explore, in the spec's words: those whose pull
    count is at most [explore_each_arm]. *)
Definition under_pulled `{Collaborators} (s : Self UCBBandit.attrs)
    (arm : nat) : Prop :=
  exists n, _N s !! arm = Some n /\ n <= UCBBandit.explore_each_arm (ext s).



(** The position of an event in a trace, if it occurs. *)
Fixpoint position (p : Event -> bool) (tr : list Event) : option nat :=
  match tr with
  | [] => None
  | ev :: tr' => if p ev then Some 0%nat else S <$> position p tr'
  end.

Definition is_model_learn (ev : Event) : bool :=
  match ev with EvModelLearn _ => true | _ => false end.
Definition is_predict (ev : Event) : bool :=
  match ev with EvPredict _ => true | _ => false end.
Definition is_iter_incr (ev : Event) : bool :=
  match ev with EvIterIncr _ => true | _ => false end.
Definition is_arm_stats (ev : Event) : bool :=
  match ev with EvArmStats _ _ => true | _ => false end.
Definition is_update_arm (ev : Event) : bool :=
  match ev with EvUpdateArm _ _ => true | _ => false end.

(** The two orders in which a cycle could train the chosen model: after the
    iteration counter, the arm's statistics and [_update_arm], or before all
    three. [evs] are the events of one call. *)
Definition trained_after_statistics (evs : list Event) : Prop :=
  exists l i j k,
    position is_model_learn evs = Some l
    /\ position is_iter_incr evs = Some i
    /\ position is_arm_stats evs = Some j
    /\ position is_update_arm evs = Some k
    /\ (i < l)%nat /\ (j < l)%nat /\ (k < l)%nat.

Definition trained_before_statistics (evs : list Event) : Prop :=
  exists p l i j k,
    position is_predict evs = Some p
    /\ position is_model_learn evs = Some l
    /\ position is_iter_incr evs = Some i
    /\ position is_arm_stats evs = Some j
    /\ position is_update_arm evs = Some k
    /\ (p < l)%nat /\ (l < i)%nat /\ (i < j)%nat /\ (j < k)%nat.

(** The epsilon-greedy attributes of an object built with
    [epsilon = eps0] and [epsilon_decay = d]: the configuration is kept and
    epsilon follows the iteration counter. *)
Definition eg_decay_inv `{Collaborators} (eps0 d : R)
    (s : Self EpsilonGreedyBandit.attrs) : Prop :=
  EpsilonGreedyBandit.epsilon_decay (ext s) = Some d
  /\ EpsilonGreedyBandit._starting_epsilon (ext s)
     = (if truthy_float (Some d) then Some eps0 else None)
  /\ EpsilonGreedyBandit.epsilon (ext s)
     = (eps0 * exp (- d * IZR (_n_iter s)))%R.

(** The (arm, reward) pairs of the statistics updates recorded in a trace,
    oldest first. *)
Fixpoint history (tr : list Event) : list (nat * R) :=
  match tr with
  | [] => []
  | EvArmStats arm reward :: tr' => (arm, reward) :: history tr'
  | _ :: tr' => history tr'
  end.

(** The statistics of a world follow the updates its trace records, all of
    them on arms of the ensemble. *)
Definition tracked `{Collaborators} {E : Type} (w : World E) : Prop :=
  stats_track (history (trace w)) (self w)
  /\ Forall (fun u => (fst u < _n_arms (self w))%nat) (history (trace w)).

(** The attributes the specification calls the bandit statistics. *)
Definition same_statistics `{Collaborators} {E : Type} (s s' : Self E) : Prop :=
  _N s' = _N s /\ _average_reward s' = _average_reward s
  /\ _n_iter s' = _n_iter s /\ metric s' = metric s
  /\ reward_scaler s' = reward_scaler s.

(** Shape of an object built by a constructor and used through its methods:
    one counter and one average per model, at least two models, a scaler. *)
Definition well_formed `{Collaborators} {E : Type} (s : Self E) : Prop :=
  (2 <= _n_arms s)%nat
  /\ length (models s) = _n_arms s
  /\ length (_N s) = _n_arms s
  /\ length (_average_reward s) = _n_arms s
  /\ reward_scaler s <> None.

(** The invariant of a constructed object: it is well formed, its subclass
    attributes satisfy [P], and the pull counts add up to the number of
    iterations. *)
Definition sound `{Collaborators} {E : Type} (P : E -> Prop) (w : World E)
  : Prop :=
  well_formed (self w) /\ P (ext (self w))
  /\ np.sum (_N (self w)) = _n_iter (self w).

(** ** A concrete ensemble

    Constant predictors (a model is the value it predicts, and learning leaves
    it as it is) scored by absolute error; the metric only works with models
    predicting a non-negative value; the scaler is the identity. *)
Module Demo.

Definition collab : Collaborators := {|
  X := unit;
  Y := Z;
  Model := Z;
  Metric := unit;
  Scaler := unit;
  model_predict_one := fun m _ => m;
  model_learn_one := fun m _ _ => m;
  metric_update := fun mt _ _ => mt;
  metric_eval := fun _ p t => IZR (Z.abs (p - t));
  bigger_is_better := fun _ => false;
  works_with := fun _ m => 0 <=? m;
  scaler_learn_one := fun sc _ => sc;
  scaler_transform_one := fun _ v => v;
  StandardScaler := tt
|}.

Definition kw (ms : list Z) : @Bandit.kwargs collab := {|
  Bandit.kw_models := (ms : list (@Model collab));
  Bandit.kw_metric := (tt : @Metric collab);
  Bandit.kw_reward_scaler := (Some tt : option (@Scaler collab));
  Bandit.kw_print_every := None;
  Bandit.kw_save_metric_values := false;
  Bandit.kw_save_percentage_pulled := false
|}.

(** A random source that draws [u] and then always the last candidate. *)
Definition rng_last (u : R) : Rng := {| rand := u; choice := fun n => (n - 1)%nat |}.

(** A random source that draws [u] and then always the first candidate. *)
Definition rng_first (u : R) : Rng := {| rand := u; choice := fun _ => 0%nat |}.

(** The object [EpsilonGreedyRegressor(models=ms, epsilon=eps,
    epsilon_decay=decay)] right after construction. *)
Definition eg_fresh (eps : R) (decay : option R) (ms : list Z)
  : @Self collab EpsilonGreedyBandit.attrs :=
  @mkSelf collab _ ms (Some tt) tt None false [] false []
    (length ms) 0 (replicate (length ms) 0) (replicate (length ms) 0%R)
    {| EpsilonGreedyBandit.epsilon := eps;
       EpsilonGreedyBandit.epsilon_decay := decay;
       EpsilonGreedyBandit._starting_epsilon :=
         if truthy_float decay then Some eps else None |}.

(** The object [UCBRegressor(models=ms, delta=delta,
    explore_each_arm=explore)] right after construction. *)
Definition ucb_fresh (delta : option R) (explore : Z) (ms : list Z)
  : @Self collab UCBBandit.attrs :=
  @mkSelf collab _ ms (Some tt) tt None false [] false []
    (length ms) 0 (replicate (length ms) 0) (replicate (length ms) 0%R)
    {| UCBBandit.delta := delta; UCBBandit.explore_each_arm := explore |}.

(** A UCB1 object in its bound phase: every arm pulled twice. *)
Definition ucb_pulled : @Self collab UCBBandit.attrs :=
  @mkSelf collab _ [1; 5; 3] (Some tt) tt None false [] false []
    3%nat 6 [2; 2; 2] [0%R; 1%R; 0%R]
    {| UCBBandit.delta := None; UCBBandit.explore_each_arm := 1 |}.

End Demo.

(** ** Notions of the further properties *)

(** The worlds reached from a constructed object [s0] without [add_models]:
    the set of arms is the one the constructor was given. *)
Inductive reachable_fixed `{Collaborators} {E : Type}
    (learn : Rng -> X -> Y -> Cmd E unit) (predict : Rng -> X -> Cmd E Y)
    (s0 : Self E) : World E -> Prop :=
| fixed_init : reachable_fixed learn predict s0 (mkWorld s0 [])
| fixed_learn w g x y w' :
    reachable_fixed learn predict s0 w -> rng_ok g ->
    learn g x y w = Ok (tt, w') -> reachable_fixed learn predict s0 w'
| fixed_predict w g x y_pred w' :
    reachable_fixed learn predict s0 w -> rng_ok g ->
    predict g x w = Ok (y_pred, w') -> reachable_fixed learn predict s0 w'.

(** What the counters and the history buffers of an object look like at any
    time: counts are not negative, an arm never pulled has average 0, each
    buffer holds one entry per iteration when its flag is set and none
    otherwise, and every stored snapshot of [percentage_pulled] adds up
    to 1. *)
Definition bookkept `{Collaborators} {E : Type} (s : Self E) : Prop :=
  0 <= _n_iter s
  /\ Forall (fun n => 0 <= n) (_N s)
  /\ (forall arm, _N s !! arm = Some 0 -> _average_reward s !! arm = Some 0%R)
  /\ Z.of_nat (length (metric_values s))
     = (if save_metric_values s then _n_iter s else 0)
  /\ Z.of_nat (length (store_percentage_pulled s))
     = (if save_percentage_pulled s then _n_iter s else 0)
  /\ Forall (fun snapshot => sum_R snapshot = 1%R) (store_percentage_pulled s).

(** The configuration a constructor copies from its keyword arguments. *)
Definition configured `{Collaborators} {E : Type} (kw : Bandit.kwargs)
    (s : Self E) : Prop :=
  print_every s = Bandit.kw_print_every kw
  /\ save_metric_values s = Bandit.kw_save_metric_values kw
  /\ save_percentage_pulled s = Bandit.kw_save_percentage_pulled kw.


(** A cycle on [s] that chose [arm], whose model was [m], and left [s']:
    that model was trained on [(x, y)], the metric was updated with the
    prediction [m] made before it was trained, one iteration and one pull of
    [arm] were counted, the number of arms is the same, and the pull count
    and the average of every other arm are as they were. *)
Definition updates_chosen_arm `{Collaborators} {E : Type} (arm : nat)
    (m : Model) (x : X) (y : Y) (s s' : Self E) : Prop :=
  models s' !! arm = Some (model_learn_one m x y)
  /\ metric s' = metric_update (metric s) (model_predict_one m x) y
  /\ _n_arms s' = _n_arms s
  /\ length (models s') = length (models s)
  /\ _n_iter s' = _n_iter s + 1
  /\ (exists n, _N s !! arm = Some n /\ _N s' !! arm = Some (n + 1))
  /\ forall j, j <> arm ->
       _N s' !! j = _N s !! j
       /\ _average_reward s' !! j = _average_reward s !! j.

(** The reward of a cycle on [s] whose chosen model is [m] and whose scaler
    is [sc], spelled out: the prediction is the one [m] makes before it is
    trained, the metric is the updated one, its value is negated unless
    bigger is better, and the scaler transforms that value after having
    learnt it. *)
Definition cycle_reward `{Collaborators} {E : Type} (s : Self E) (m : Model)
    (sc : Scaler) (x : X) (y : Y) : R * Scaler :=
  let y_pred := model_predict_one m x in
  let mt := metric_update (metric s) y_pred y in
  let v := if bigger_is_better mt then metric_eval mt y_pred y
           else (-1 * metric_eval mt y_pred y)%R in
  let sc' := scaler_learn_one sc v in
  (scaler_transform_one sc' v, sc').

(** * Properties *)

(** ** numpy helpers *)

Lemma argmax_scan_first_max (a pre : list R) (best_i : nat) (best : R) :
  pre !! best_i = Some best ->
  (forall j x, pre !! j = Some x -> (x <= best)%R) ->
  (forall j x, (j < best_i)%nat -> pre !! j = Some x -> (x < best)%R) ->
  first_max (pre ++ a) (np.argmax_scan best_i best (length pre) a).
Proof.
  revert pre best_i best.
  induction a as [|x a IH]; intros pre best_i best Hb Hle Hlt; simpl.
  - rewrite app_nil_r. exists best. auto.
  - assert (Hlen : length (pre ++ [x]) = S (length pre))
      by (rewrite length_app; simpl; lia).
    replace (pre ++ x :: a) with ((pre ++ [x]) ++ a)
      by (rewrite <- app_assoc; reflexivity).
    destruct (Rlt_dec best x) as [Hx|Hx]; rewrite <- Hlen; apply IH.
    + rewrite lookup_app_r by lia. rewrite Nat.sub_diag. reflexivity.
    + intros j y Hj. apply lookup_app_Some in Hj as [Hj|[_ Hj]].
      * apply Hle in Hj. lra.
      * apply list_lookup_singleton_Some in Hj as [_ ->]. lra.
    + intros j y Hji Hj. rewrite lookup_app_l in Hj by lia.
      apply Hle in Hj. lra.
    + rewrite lookup_app_l by (eapply lookup_lt_Some; eauto). exact Hb.
    + intros j y Hj. apply lookup_app_Some in Hj as [Hj|[_ Hj]].
      * eauto.
      * apply list_lookup_singleton_Some in Hj as [_ ->]. lra.
    + intros j y Hji Hj.
      assert (best_i < length pre)%nat by (eapply lookup_lt_Some; eauto).
      rewrite lookup_app_l in Hj by lia. eauto.
Qed.

Lemma argmax_first_max (a : list R) :
  a <> [] -> exists i, np.argmax a = Ok i /\ first_max a i.
Proof.
  destruct a as [|x a]; [congruence|intros _].
  exists (np.argmax_scan 0 x 1 a). split; [reflexivity|].
  apply (argmax_scan_first_max a [x] 0%nat x).
  - reflexivity.
  - intros j y Hj. apply list_lookup_singleton_Some in Hj as [_ ->]. lra.
  - intros j y Hj. lia.
Qed.

Lemma first_max_lt_length (a : list R) (i : nat) :
  first_max a i -> (i < length a)%nat.
Proof. intros (m & Hm & _). eapply lookup_lt_Some; eauto. Qed.

Lemma first_max_unique (a : list R) (i j : nat) :
  first_max a i -> first_max a j -> i = j.
Proof.
  intros (m & Hm & Hle & Hlt) (m' & Hm' & Hle' & Hlt').
  destruct (lt_eq_lt_dec i j) as [[Hij| ->]|Hij]; [|reflexivity|].
  - specialize (Hlt' _ _ Hij Hm). specialize (Hle' _ _ Hm). specialize (Hle _ _ Hm'). lra.
  - specialize (Hlt _ _ Hij Hm'). specialize (Hle _ _ Hm'). specialize (Hle' _ _ Hm). lra.
Qed.

(** ** Construction of the concrete ensembles *)

Lemma demo_eg_init (eps : R) (decay : option R) :
  @EpsilonGreedyBandit.__init__ Demo.collab eps decay (Demo.kw [1; 5; 3])
  = Ok (Demo.eg_fresh eps decay [1; 5; 3]).
Proof. reflexivity. Qed.

Lemma demo_ucb_init_None (explore : Z) :
  @UCBBandit.__init__ Demo.collab None explore (Demo.kw [1; 5; 3])
  = Ok (Demo.ucb_fresh None explore [1; 5; 3]).
Proof. reflexivity. Qed.

(** ** EpsilonGreedyBandit._pull_arm *)

Section EpsilonGreedyPull.
Context `{Collaborators}.
Import EpsilonGreedyBandit.

Lemma eg_pull_arm_greedy (w : World attrs) (g : Rng) :
  (epsilon (ext (self w)) < rand g)%R ->
  _pull_arm g w = lift (np.argmax (_average_reward (self w))) w.
Proof.
  intros Hu. unfold _pull_arm, bind, get. simpl.
  destruct (Rgt_dec _ _) as [_|Hn]; [reflexivity|].
  exfalso. apply Hn. exact Hu.
Qed.

Lemma eg_pull_arm_explore (w : World attrs) (g : Rng) :
  (rand g <= epsilon (ext (self w)))%R ->
  _pull_arm g w = lift (random.choice_int g (_n_arms (self w))) w.
Proof.
  intros Hu. unfold _pull_arm, bind, get. simpl.
  destruct (Rgt_dec _ _) as [Hgt|_]; [|reflexivity].
  unfold Rgt in Hgt. lra.
Qed.

(** C3, as the code has it. With [epsilon = 0] the greedy branch is taken
    exactly for the draws [u > 0]: [_pull_arm] then returns the first index
    at which [_average_reward] is maximal and leaves the object as it is.
    For the draw [u = 0] the strict test [u > epsilon] fails and the arm is
    the one [np.random.choice(self._n_arms)] draws. *)
Theorem C3_epsilon_zero_pull_arm (w : World attrs) (g : Rng) :
  epsilon (ext (self w)) = 0%R ->
  _average_reward (self w) <> [] ->
  ((0 < rand g)%R ->
     exists i, _pull_arm g w = Ok (i, w)
               /\ first_max (_average_reward (self w)) i)
  /\ (rand g = 0%R ->
        _pull_arm g w = lift (random.choice_int g (_n_arms (self w))) w).
Proof.
  intros Heps Hne. split.
  - intros Hu. destruct (argmax_first_max _ Hne) as (i & Hi & Hmax).
    exists i. split; [|exact Hmax].
    rewrite eg_pull_arm_greedy by lra. unfold lift. rewrite Hi. reflexivity.
  - intros Hu. apply eg_pull_arm_explore. lra.
Qed.

End EpsilonGreedyPull.

Lemma C3_epsilon_zero_pull_arm_witness :
  let w := mkWorld (Demo.eg_fresh 0 None [1; 5; 3]) [] in
  let g := Demo.rng_last (1 / 2) in
  EpsilonGreedyBandit.epsilon (ext (self w)) = 0%R
  /\ _average_reward (self w) <> []
  /\ ((0 < rand g)%R ->
        exists i, EpsilonGreedyBandit._pull_arm g w = Ok (i, w)
                  /\ first_max (_average_reward (self w)) i)
  /\ (rand g = 0%R ->
        EpsilonGreedyBandit._pull_arm g w
        = lift (random.choice_int g (_n_arms (self w))) w).
Proof.
  intros w g.
  assert (He : EpsilonGreedyBandit.epsilon (ext (self w)) = 0%R) by reflexivity.
  assert (Hn : _average_reward (self w) <> []) by discriminate.
  split; [exact He|]. split; [exact Hn|].
  exact (C3_epsilon_zero_pull_arm w g He Hn).
Defined.

(** C3 as stated fails: on a freshly built ensemble with [epsilon = 0], whose
    averages are all 0.0 so that argmax is arm 0, the draw [u = 0] (which
    [rand()] can return) sends [_pull_arm] to the exploration branch, and a
    source that then draws the last index makes it return arm 2; the draw
    [u = 1/2] returns arm 0. *)
Lemma C3_counterexample :
  let w := mkWorld (Demo.eg_fresh 0 None [1; 5; 3]) [] in
  @EpsilonGreedyBandit.__init__ Demo.collab 0 None (Demo.kw [1; 5; 3])
  = Ok (self w)
  /\ rng_ok (Demo.rng_last 0) /\ rng_ok (Demo.rng_last (1 / 2))
  /\ np.argmax (_average_reward (self w)) = Ok 0%nat
  /\ EpsilonGreedyBandit._pull_arm (Demo.rng_last 0) w = Ok (2%nat, w)
  /\ EpsilonGreedyBandit._pull_arm (Demo.rng_last (1 / 2)) w = Ok (0%nat, w).
Proof.
  intros w. split; [reflexivity|].
  split; [split; [simpl; lra|intros n Hn; simpl; lia]|].
  split; [split; [simpl; lra|intros n Hn; simpl; lia]|].
  split.
  - simpl. destruct (Rlt_dec 0 0) as [Hlt|_]; [lra|]. reflexivity.
  - split.
    + rewrite eg_pull_arm_explore by (simpl; lra). reflexivity.
    + rewrite eg_pull_arm_greedy by (simpl; lra). simpl.
      destruct (Rlt_dec 0 0) as [Hlt|_]; [lra|]. reflexivity.
Qed.

(** ** The statistics update of [learn_one] *)

Section UpdateInternals.
Context `{Collaborators} {E : Type}.

Lemma update_internals_ok (w : World E) (arm : nat) (r : R) (n : Z) (avg : R) :
  _N (self w) !! arm = Some n ->
  _average_reward (self w) !! arm = Some avg ->
  Bandit.update_internals arm r w
  = Ok (tt,
        mkWorld
          (set_average_reward
             (<[arm := (avg + 1 / IZR (n + 1) * (r - avg))%R]>
                (_average_reward (self w)))
             (set_N (<[arm := n + 1]> (_N (self w)))
                (set_n_iter (_n_iter (self w) + 1) (self w))))
          (trace w ++ [EvIterIncr (_n_iter (self w) + 1); EvArmStats arm r])).
Proof.
  intros HN Havg.
  unfold Bandit.update_internals, bind, modify, get, tell. simpl.
  rewrite HN. simpl.
  rewrite list_lookup_insert_eq by (eapply lookup_lt_Some; eauto).
  rewrite Havg. simpl. rewrite <- app_assoc. reflexivity.
Qed.

Lemma sum_R_app (l1 l2 : list R) : sum_R (l1 ++ l2) = (sum_R l1 + sum_R l2)%R.
Proof.
  induction l1 as [|x l1 IH]; simpl; [lra|].
  fold (sum_R (l1 ++ l2)). fold (sum_R l1). rewrite IH. lra.
Qed.

Lemma rewards_of_snoc_eq (arm : nat) (us : list (nat * R)) (r : R) :
  rewards_of arm (us ++ [(arm, r)]) = rewards_of arm us ++ [r].
Proof.
  unfold rewards_of. rewrite filter_app, map_app. f_equal.
  rewrite filter_cons_True by reflexivity. reflexivity.
Qed.

Lemma rewards_of_snoc_ne (arm a : nat) (us : list (nat * R)) (r : R) :
  a <> arm -> rewards_of arm (us ++ [(a, r)]) = rewards_of arm us.
Proof.
  intros Hne. unfold rewards_of. rewrite filter_app, map_app.
  rewrite filter_cons_False by (simpl; congruence).
  rewrite filter_nil. simpl. apply app_nil_r.
Qed.

Lemma fresh_stats_track (s : Self E) : fresh_stats s -> stats_track [] s.
Proof.
  intros [HN Havg] arm Harm. rewrite HN, Havg. simpl. split.
  - apply lookup_replicate. auto.
  - exists 0%R. split; [apply lookup_replicate; auto|lra].
Qed.

Lemma update_internals_track (w : World E) (hist : list (nat * R))
    (arm : nat) (r : R) :
  stats_track hist (self w) -> (arm < _n_arms (self w))%nat ->
  exists w', Bandit.update_internals arm r w = Ok (tt, w')
    /\ _n_arms (self w') = _n_arms (self w)
    /\ stats_track (hist ++ [(arm, r)]) (self w').
Proof.
  intros Htr Harm.
  destruct (Htr arm Harm) as (HN & avg & Havg & Hsum).
  eexists. split; [apply (update_internals_ok w arm r _ avg HN Havg)|].
  split; [reflexivity|].
  intros a Ha. simpl in Ha |- *.
  destruct (decide (a = arm)) as [->|Hne].
  - rewrite rewards_of_snoc_eq, length_app, sum_R_app. simpl.
    rewrite !list_lookup_insert_eq by (eapply lookup_lt_Some; eauto).
    split; [f_equal; lia|].
    eexists. split; [reflexivity|].
    replace (Z.of_nat (length (rewards_of arm hist)) + 1)
      with (Z.of_nat (S (length (rewards_of arm hist)))) by lia.
    rewrite <- INR_IZR_INZ. rewrite Nat.add_1_r.
    set (k := length (rewards_of arm hist)) in *.
    assert (Hk : INR (S k) <> 0%R) by (apply not_0_INR; lia).
    rewrite S_INR in *. field_simplify; [|exact Hk]. lra.
  - rewrite rewards_of_snoc_ne by congruence.
    rewrite !list_lookup_insert_ne by congruence.
    exact (Htr a Ha).
Qed.



End UpdateInternals.

(** ** Running commands step by step *)

Section Steps.
Context `{Collaborators} {E : Type}.

Lemma bind_ret {A B} (a : A) (k : A -> Cmd E B) (w : World E) :
  bind (ret a) k w = k a w.
Proof. reflexivity. Qed.

Lemma bind_tell {B} (ev : Event) (k : unit -> Cmd E B) (w : World E) :
  bind (tell ev) k w = k tt (mkWorld (self w) (trace w ++ [ev])).
Proof. reflexivity. Qed.

Lemma bind_get {B} (k : Self E -> Cmd E B) (w : World E) :
  bind get k w = k (self w) w.
Proof. reflexivity. Qed.

Lemma bind_modify {B} (f : Self E -> Self E) (k : unit -> Cmd E B)
    (w : World E) :
  bind (modify f) k w = k tt (mkWorld (f (self w)) (trace w)).
Proof. reflexivity. Qed.

Lemma bind_run {A B} (c : Cmd E A) (k : A -> Cmd E B) (w w1 : World E) (a : A) :
  c w = Ok (a, w1) -> bind c k w = k a w1.
Proof. intros Hc. unfold bind. rewrite Hc. reflexivity. Qed.

Lemma bind_bind {A B C} (c : Cmd E A) (k1 : A -> Cmd E B) (k2 : B -> Cmd E C)
    (w : World E) :
  bind (bind c k1) k2 w = bind c (fun a => bind (k1 a) k2) w.
Proof. unfold bind. destruct (c w) as [[a w1]|e]; reflexivity. Qed.

End Steps.

(** [norm] reads attributes off the object just built; [step] runs the next
    primitive command of a sequence. *)
Ltac norm :=
  cbv beta iota zeta;
  cbn [self trace models reward_scaler metric print_every save_metric_values
       metric_values save_percentage_pulled store_percentage_pulled
       _n_arms _n_iter _N _average_reward ext
       set_models set_reward_scaler set_metric set_metric_values
       set_store_percentage_pulled set_n_arms set_n_iter set_N
       set_average_reward set_ext].

Ltac step :=
  first [ rewrite bind_tell | rewrite bind_get | rewrite bind_modify
        | rewrite bind_ret | rewrite bind_bind ]; norm.

(** ** One decision cycle *)

Section LearnOne.
Context `{Collaborators} {E : Type}.

(** The abstract methods, and what the cycle needs of them: on a well-formed
    object whose subclass attributes satisfy [P], [_pull_arm] returns an arm
    of the ensemble and leaves the object alone, and [_update_arm] only
    rewrites the subclass attributes, to [update_ext]. *)
Variable _pull_arm : Rng -> Cmd E nat.
Variable _update_arm : nat -> R -> Cmd E unit.
Variable P : E -> Prop.
Variable update_ext : Self E -> E.

Hypothesis pull_ok : forall g w,
  rng_ok g -> well_formed (self w) -> P (ext (self w)) ->
  exists arm, _pull_arm g w = Ok (arm, w) /\ (arm < _n_arms (self w))%nat.
Hypothesis update_ok : forall arm r w,
  P (ext (self w)) ->
  _update_arm arm r w
  = Ok (tt, mkWorld (set_ext (update_ext (self w)) (self w)) (trace w))
  /\ P (update_ext (self w)).

Lemma ex_run {A : Type} (r : result (A * World E)) (Q : World E -> Prop)
    (a : A) (w0 : World E) :
  r = Ok (a, w0) -> Q w0 -> exists w', r = Ok (a, w') /\ Q w'.
Proof. intros Hr HQ. exists w0. auto. Qed.

Lemma getitem_ok (w : World E) (i : nat) (m : Model) :
  models (self w) !! i = Some m -> Bandit.__getitem__ i w = Ok (m, w).
Proof.
  intros Hm. unfold Bandit.__getitem__. step. rewrite Hm. reflexivity.
Qed.

Lemma compute_scaled_reward_ok (w : World E) (y_pred y : Y) (sc : Scaler) :
  reward_scaler (self w) = Some sc ->
  let v := if bigger_is_better (metric (self w))
           then metric_eval (metric (self w)) y_pred y
           else (-1 * metric_eval (metric (self w)) y_pred y)%R in
  Bandit._compute_scaled_reward y_pred y true w
  = Ok (scaler_transform_one (scaler_learn_one sc v) v,
        mkWorld (set_reward_scaler (Some (scaler_learn_one sc v)) (self w))
          (trace w ++ [EvScalerLearn; EvScalerTransform])).
Proof.
  intros Hsc v. unfold Bandit._compute_scaled_reward. step.
  unfold when. norm.
  erewrite bind_run.
  2:{ step. rewrite Hsc. step. reflexivity. }
  step. step. rewrite <- app_assoc. reflexivity.
Qed.

(** What one call of [learn_one] does on a well-formed object. *)
Lemma learn_one_spec (g : Rng) (x : X) (y : Y) (w : World E) :
  rng_ok g -> well_formed (self w) -> P (ext (self w)) ->
  exists arm m sc n avg,
    _pull_arm g w = Ok (arm, w)
    /\ (arm < _n_arms (self w))%nat
    /\ models (self w) !! arm = Some m
    /\ reward_scaler (self w) = Some sc
    /\ _N (self w) !! arm = Some n
    /\ _average_reward (self w) !! arm = Some avg
    /\ exists w',
      Bandit.learn_one _pull_arm _update_arm g x y w = Ok (tt, w')
      /\ (_n_arms (self w') = _n_arms (self w)
      /\ models (self w') = <[arm := model_learn_one m x y]> (models (self w))
      /\ metric (self w')
         = metric_update (metric (self w)) (model_predict_one m x) y
      /\ reward_scaler (self w')
         = Some (scaler_learn_one sc (metric_to_reward (self w) m x y))
      /\ _n_iter (self w') = _n_iter (self w) + 1
      /\ _N (self w') = <[arm := n + 1]> (_N (self w))
      /\ _average_reward (self w')
         = <[arm := (avg + 1 / IZR (n + 1)
                           * (reward_of (self w) m sc x y - avg))%R]>
             (_average_reward (self w))
      /\ (exists s3, ext (self w') = update_ext s3
            /\ ext s3 = ext (self w) /\ _n_iter s3 = _n_iter (self w) + 1)
      /\ P (ext (self w'))
      /\ trace w' = trace w
                    ++ cycle_events arm (_n_iter (self w) + 1)
                         (reward_of (self w) m sc x y)
                    ++ bookkeeping_events (self w)).
Proof.
  intros Hg Hwf HP.
  destruct (pull_ok g w Hg Hwf HP) as (arm & Hpull & Harm).
  destruct Hwf as (Hn2 & Hlm & HlN & Hla & Hsc).
  destruct (lookup_lt_is_Some_2 (models (self w)) arm) as [m Hm]; [lia|].
  destruct (lookup_lt_is_Some_2 (_N (self w)) arm) as [n HN]; [lia|].
  destruct (lookup_lt_is_Some_2 (_average_reward (self w)) arm) as [avg Ha]; [lia|].
  destruct (reward_scaler (self w)) as [sc|] eqn:Hsc'; [|congruence].
  exists arm, m, sc, n, avg.
  do 6 (split; [first [assumption|reflexivity]|]).
  unfold reward_of, metric_to_reward, cycle_events, bookkeeping_events.
  destruct (print_every (self w)) as [p|] eqn:Hpe;
    destruct (save_percentage_pulled (self w)) eqn:Hsp;
    destruct (save_metric_values (self w)) eqn:Hsm.
  all: try (destruct (negb (p =? 0)) eqn:Hp0;
            destruct ((_n_iter (self w) + 1) mod p =? 0) eqn:Hmod).
  all: eapply ex_run;
    [ unfold Bandit.learn_one;
      rewrite (bind_run _ _ _ _ _ Hpull); norm;
      step;
      erewrite bind_run by (apply getitem_ok; norm; exact Hm); norm;
      do 5 step;
      erewrite bind_run
        by (apply (compute_scaled_reward_ok _ _ _ sc); exact Hsc'); norm;
      erewrite bind_run
        by (apply (update_internals_ok _ arm _ n avg); norm; assumption); norm;
      step;
      erewrite bind_run by (apply update_ok; exact HP); norm;
      step; rewrite Hpe; unfold truthy_int, when, Bandit._print_info;
      rewrite ?Hp0; norm; rewrite ?Hmod; norm;
      repeat step; rewrite Hsp; norm; repeat step; rewrite Hsm; norm;
      repeat step;
      first [reflexivity | unfold tell, ret; reflexivity]
    | norm; rewrite <- ?app_assoc; simpl app ].
  all: do 7 (split; [reflexivity|]).
  all: split; [eexists; split; [reflexivity|split; reflexivity]|].
  all: split;
    [ match goal with
      | |- P (update_ext ?s) => exact (proj2 (update_ok arm 0%R (mkWorld s []) HP))
      end | ].
  all: reflexivity.
Qed.


(** [predict_one] under the same assumptions: it returns the prediction of
    the arm [_pull_arm] chose and leaves the object as it was. *)
Lemma predict_one_spec (_pred_func : Model -> X -> Y) (g : Rng) (x : X)
    (w : World E) :
  rng_ok g -> well_formed (self w) -> P (ext (self w)) ->
  exists arm m,
    _pull_arm g w = Ok (arm, w)
    /\ models (self w) !! arm = Some m
    /\ Bandit.predict_one _pull_arm _pred_func g x w
       = Ok (_pred_func m x,
             mkWorld (self w) (trace w ++ [EvPullArm arm; EvPredict arm])).
Proof.
  intros Hg Hwf HP.
  destruct (pull_ok g w Hg Hwf HP) as (arm & Hpull & Harm).
  destruct Hwf as (Hn2 & Hlm & _).
  destruct (lookup_lt_is_Some_2 (models (self w)) arm) as [m Hm]; [lia|].
  exists arm, m. split; [exact Hpull|]. split; [exact Hm|].
  unfold Bandit.predict_one.
  rewrite (bind_run _ _ _ _ _ Hpull). norm. step.
  erewrite bind_run by (apply getitem_ok; norm; exact Hm). norm. step.
  rewrite <- app_assoc. reflexivity.
Qed.

End LearnOne.

(** ** add_models *)

Section AddModels.
Context `{Collaborators} {E : Type}.

Lemma add_models_list (l : list Model) (w : World E) :
  Bandit.add_models (PyList l) w
  = Ok (tt,
        mkWorld
          (mkSelf (models (self w) ++ l) (reward_scaler (self w))
             (metric (self w)) (print_every (self w))
             (save_metric_values (self w)) (metric_values (self w))
             (save_percentage_pulled (self w))
             (store_percentage_pulled (self w))
             (_n_arms (self w) + length l)%nat (_n_iter (self w))
             (_N (self w) ++ replicate (length l) 0)
             (_average_reward (self w) ++ replicate (length l) 0%R)
             (ext (self w)))
          (trace w)).
Proof. reflexivity. Qed.

Lemma add_models_inv (a : PyArg) (w w' : World E) :
  Bandit.add_models a w = Ok (tt, w') ->
  exists l, a = PyList l /\ Bandit.add_models (PyList l) w = Ok (tt, w').
Proof. destruct a; try discriminate. intros Hw. eauto. Qed.

End AddModels.

(** ** Sums of pull counts *)

Lemma np_sum_app (a b : list Z) : np.sum (a ++ b) = np.sum a + np.sum b.
Proof.
  induction a as [|x a IH]; simpl; [reflexivity|].
  fold (np.sum (a ++ b)). fold (np.sum a). lia.
Qed.

Lemma np_sum_zeros (n : nat) : np.sum (replicate n 0) = 0.
Proof. induction n as [|n IH]; simpl; [reflexivity|exact IH]. Qed.


Lemma np_sum_insert (a : list Z) (i : nat) (n v : Z) :
  a !! i = Some n -> np.sum (<[i := v]> a) = np.sum a - n + v.
Proof.
  revert i. induction a as [|x a IH]; intros [|i] Hi; simpl in *; try discriminate.
  - injection Hi as ->. fold (np.sum a). lia.
  - fold (np.sum (<[i := v]> a)). fold (np.sum a). rewrite (IH i Hi). lia.
Qed.

(** ** The epsilon-greedy policy as an instance of the cycle *)

Section EpsilonGreedy.
Context `{Collaborators}.
Import EpsilonGreedyBandit.

Lemma eg_pull_arm_frame (g : Rng) (w w' : World attrs) (arm : nat) :
  _pull_arm g w = Ok (arm, w') -> w' = w.
Proof.
  unfold _pull_arm. rewrite bind_get.
  destruct (Rgt_dec _ _); unfold lift;
    [destruct (np.argmax _)|destruct (random.choice_int _ _)];
    intros Hr; congruence.
Qed.

Lemma eg_pull_total (g : Rng) (w : World attrs) :
  rng_ok g -> well_formed (self w) ->
  exists arm, _pull_arm g w = Ok (arm, w) /\ (arm < _n_arms (self w))%nat.
Proof.
  intros [_ Hch] (Hn2 & _ & _ & Hla & _).
  destruct (Rgt_dec (rand g) (epsilon (ext (self w)))) as [Hu|Hu].
  - destruct (argmax_first_max (_average_reward (self w))) as (i & Hi & Hmax).
    { intros Hnil. rewrite Hnil in Hla. simpl in Hla. lia. }
    exists i. rewrite eg_pull_arm_greedy by exact Hu.
    unfold lift. rewrite Hi. split; [reflexivity|].
    apply first_max_lt_length in Hmax. lia.
  - exists (choice g (_n_arms (self w))).
    rewrite eg_pull_arm_explore by (unfold Rgt in Hu; lra).
    unfold lift, random.choice_int.
    destruct (decide (_n_arms (self w) = 0%nat)) as [H0|_]; [lia|].
    split; [reflexivity|]. apply Hch. lia.
Qed.

Lemma eg_pull_ok (g : Rng) (w : World attrs) :
  rng_ok g -> well_formed (self w) -> eg_attrs_ok (ext (self w)) ->
  exists arm, _pull_arm g w = Ok (arm, w) /\ (arm < _n_arms (self w))%nat.
Proof. intros Hg Hwf _. exact (eg_pull_total g w Hg Hwf). Qed.

Lemma eg_update_ok (arm : nat) (r : R) (w : World attrs) :
  eg_attrs_ok (ext (self w)) ->
  _update_arm arm r w
  = Ok (tt, mkWorld (set_ext (eg_update_ext (self w)) (self w)) (trace w))
  /\ eg_attrs_ok (eg_update_ext (self w)).
Proof.
  intros Hok. unfold _update_arm, eg_update_ext. rewrite bind_get.
  destruct w as [[ms sc mt pe smv mv spp sp na ni N av [eps dec st]] tr].
  unfold eg_attrs_ok in *. simpl in *.
  destruct dec as [d|]; simpl in *.
  - destruct (Req_dec_T d 0) as [Hd|Hd].
    + destruct st; split; try reflexivity; simpl; auto.
      all: destruct (Req_dec_T d 0); congruence.
    + destruct st as [e0|]; [|exfalso; apply Hok; reflexivity].
      split; [reflexivity|]. simpl. congruence.
  - destruct st; split; try reflexivity; simpl; auto.
Qed.

End EpsilonGreedy.

(** ** The UCB policy as an instance of the cycle *)

Lemma where_from_elem (mask : list bool) (i x : nat) :
  x ∈ np.where_from i mask
  <-> exists j, x = (i + j)%nat /\ mask !! j = Some true.
Proof.
  revert i. induction mask as [|b mask IH]; intros i; simpl.
  - split; [intros Hx; inversion Hx|intros (j & _ & Hj); discriminate].
  - destruct b.
    + rewrite elem_of_cons, IH. split.
      * intros [->|(j & -> & Hj)].
        -- exists 0%nat. split; [lia|reflexivity].
        -- exists (S j). split; [lia|exact Hj].
      * intros ([|j] & -> & Hj).
        -- left. lia.
        -- right. exists j. split; [lia|exact Hj].
    + rewrite IH. split.
      * intros (j & -> & Hj). exists (S j). split; [lia|exact Hj].
      * intros ([|j] & -> & Hj); [discriminate|].
        exists j. split; [lia|exact Hj].
Qed.

Lemma where_from_NoDup (mask : list bool) (i : nat) :
  NoDup (np.where_from i mask).
Proof.
  revert i. induction mask as [|b mask IH]; intros i; simpl.
  - constructor.
  - destruct b; [|apply IH].
    constructor; [|apply IH].
    rewrite where_from_elem. intros (j & Hj & _). lia.
Qed.

Lemma any_true (mask : list bool) :
  np.any mask = true <-> exists j, mask !! j = Some true.
Proof.
  induction mask as [|b mask IH]; simpl.
  - split; [discriminate|intros (j & Hj); discriminate].
  - destruct b; simpl.
    + split; [intros _; exists 0%nat; reflexivity|reflexivity].
    + rewrite IH. split.
      * intros (j & Hj). exists (S j). exact Hj.
      * intros ([|j] & Hj); [discriminate|]. exists j. exact Hj.
Qed.

Section UCB.
Context `{Collaborators}.
Import UCBBandit.

(** The mask [self._N <= self.explore_each_arm] marks the under-pulled arms. *)
Lemma not_pulled_enough_lookup (s : Self attrs) (arm : nat) :
  map (fun n => n <=? explore_each_arm (ext s)) (_N s) !! arm = Some true
  <-> under_pulled s arm.
Proof.
  unfold under_pulled. rewrite list_lookup_fmap. split.
  - destruct (_N s !! arm) as [n|]; simpl; [|discriminate].
    intros Hn. exists n. split; [reflexivity|]. injection Hn as Hn. lia.
  - intros (n & -> & Hn). simpl. f_equal. lia.
Qed.

Lemma under_pulled_cases (s : Self attrs) :
  (exists arm, under_pulled s arm) \/ (forall arm, ~ under_pulled s arm).
Proof.
  destruct (np.any (map (fun n => n <=? explore_each_arm (ext s)) (_N s)))
    eqn:Hany.
  - left. apply any_true in Hany as (j & Hj).
    exists j. apply not_pulled_enough_lookup. exact Hj.
  - right. intros arm Harm. apply not_pulled_enough_lookup in Harm.
    assert (Htrue : np.any (map (fun n => n <=? explore_each_arm (ext s)) (_N s))
                    = true) by (apply any_true; eauto).
    congruence.
Qed.

Lemma ucb_pull_arm_frame (g : Rng) (w w' : World attrs) (arm : nat) :
  _pull_arm g w = Ok (arm, w') -> w' = w.
Proof.
  unfold _pull_arm. rewrite bind_get. cbv zeta.
  destruct (np.any _); unfold lift;
    [destruct (random.choice_arr _ _)|destruct (np.argmax _)];
    intros Hr; congruence.
Qed.


(** The exploration phase: the candidates are the under-pulled arms, each
    once, and the arm returned is the candidate at the drawn position. *)
Lemma ucb_pull_arm_explore (g : Rng) (w : World attrs) :
  rng_ok g ->
  (exists arm, under_pulled (self w) arm) ->
  exists cands arm,
    NoDup cands
    /\ (forall a, a ∈ cands <-> under_pulled (self w) a)
    /\ cands !! choice g (length cands) = Some arm
    /\ _pull_arm g w = Ok (arm, w).
Proof.
  intros [_ Hch] (a0 & Ha0).
  set (mask := map (fun n => n <=? explore_each_arm (ext (self w))) (_N (self w))).
  assert (Hany : np.any mask = true).
  { apply any_true. exists a0. apply not_pulled_enough_lookup. exact Ha0. }
  assert (Hel : forall a, a ∈ np.where_ mask <-> under_pulled (self w) a).
  { intros a. unfold np.where_. rewrite where_from_elem.
    rewrite <- not_pulled_enough_lookup. fold mask. split.
    - intros (j & -> & Hj). exact Hj.
    - intros Hj. exists a. split; [reflexivity|exact Hj]. }
  assert (Hlen : (0 < length (np.where_ mask))%nat).
  { apply Hel in Ha0. destruct (np.where_ mask); [inversion Ha0|simpl; lia]. }
  destruct (lookup_lt_is_Some_2 (np.where_ mask)
              (choice g (length (np.where_ mask)))) as [arm Harm].
  { apply Hch. exact Hlen. }
  exists (np.where_ mask), arm.
  split; [apply where_from_NoDup|]. split; [exact Hel|]. split; [exact Harm|].
  unfold _pull_arm. rewrite bind_get. cbv zeta. fold mask. rewrite Hany.
  unfold lift, random.choice_arr. rewrite Harm. reflexivity.
Qed.

(** The bound phase: with no under-pulled arm, the arm returned is the first
    maximum of [upper_bound]. *)
Lemma ucb_pull_arm_bound (g : Rng) (w : World attrs) :
  (forall arm, ~ under_pulled (self w) arm) ->
  upper_bound (self w) <> [] ->
  exists i, _pull_arm g w = Ok (i, w) /\ first_max (upper_bound (self w)) i.
Proof.
  intros Hnone Hne.
  set (mask := map (fun n => n <=? explore_each_arm (ext (self w))) (_N (self w))).
  assert (Hany : np.any mask = false).
  { destruct (np.any mask) eqn:Hany; [|reflexivity].
    apply any_true in Hany as (j & Hj).
    apply not_pulled_enough_lookup in Hj. exfalso. exact (Hnone j Hj). }
  destruct (argmax_first_max _ Hne) as (i & Hi & Hmax).
  exists i. split; [|exact Hmax].
  unfold _pull_arm. rewrite bind_get. cbv zeta. fold mask. rewrite Hany.
  unfold lift. rewrite Hi. reflexivity.
Qed.

Lemma upper_bound_length (s : Self attrs) :
  length (_average_reward s) = length (_N s) ->
  length (upper_bound s) = length (_N s).
Proof.
  intros Hl. unfold upper_bound, exploration_bonus.
  destruct (delta (ext s)) as [d|]; [destruct (truthy_float (Some d))|];
    rewrite length_zip_with, length_map; lia.
Qed.

Lemma ucb_pull_total (g : Rng) (w : World attrs) :
  rng_ok g -> well_formed (self w) ->
  exists arm, _pull_arm g w = Ok (arm, w) /\ (arm < _n_arms (self w))%nat.
Proof.
  intros Hg (Hn2 & _ & HlN & Hla & _).
  destruct (under_pulled_cases (self w)) as [Hex|Hno].
  - destruct (ucb_pull_arm_explore g w Hg Hex)
      as (cands & arm & _ & Hel & Harm & Hpull).
    exists arm. split; [exact Hpull|].
    assert (Hin : arm ∈ cands) by (eapply list_elem_of_lookup_2; eauto).
    apply Hel in Hin as (n & Hn & _).
    apply lookup_lt_Some in Hn. lia.
  - assert (Hlen : length (upper_bound (self w)) = _n_arms (self w)).
    { rewrite upper_bound_length by lia. exact HlN. }
    destruct (ucb_pull_arm_bound g w) as (i & Hpull & Hmax).
    { exact Hno. }
    { intros Hnil. rewrite Hnil in Hlen. simpl in Hlen. lia. }
    exists i. split; [exact Hpull|].
    apply first_max_lt_length in Hmax. lia.
Qed.

Lemma ucb_pull_ok (g : Rng) (w : World attrs) :
  rng_ok g -> well_formed (self w) -> ucb_attrs_ok (ext (self w)) ->
  exists arm, _pull_arm g w = Ok (arm, w) /\ (arm < _n_arms (self w))%nat.
Proof. intros Hg Hwf _. exact (ucb_pull_total g w Hg Hwf). Qed.

Lemma ucb_update_ok (arm : nat) (r : R) (w : World attrs) :
  ucb_attrs_ok (ext (self w)) ->
  _update_arm arm r w
  = Ok (tt, mkWorld (set_ext (ext (self w)) (self w)) (trace w))
  /\ ucb_attrs_ok (ext (self w)).
Proof.
  intros Hok. split; [|exact Hok].
  destruct w as [[ms sc mt pe smv mv spp sp na ni N av e] tr]. reflexivity.
Qed.

End UCB.

(** ** Constructors *)

Section Constructors.
Context `{Collaborators}.

Lemma check_models_forallb (mt : Metric) (ms : list Model) :
  Bandit.check_models mt ms
  = if forallb (works_with mt) ms then Ok tt else Raise ValueError.
Proof.
  induction ms as [|m ms IH]; simpl; [reflexivity|].
  destruct (works_with mt m); simpl; [exact IH|reflexivity].
Qed.

Lemma bandit_init_cases (kw : Bandit.kwargs) :
  (( (length (Bandit.kw_models kw) <= 1)%nat
     \/ forallb (works_with (Bandit.kw_metric kw)) (Bandit.kw_models kw) = false)
   /\ Bandit.__init__ kw = Raise ValueError)
  \/ ((2 <= length (Bandit.kw_models kw))%nat
      /\ forallb (works_with (Bandit.kw_metric kw)) (Bandit.kw_models kw) = true
      /\ Bandit.__init__ kw
         = Ok (mkSelf (Bandit.kw_models kw) (Bandit.kw_reward_scaler kw)
                 (Bandit.kw_metric kw) (Bandit.kw_print_every kw)
                 (Bandit.kw_save_metric_values kw) []
                 (Bandit.kw_save_percentage_pulled kw) []
                 (length (Bandit.kw_models kw)) 0
                 (replicate (length (Bandit.kw_models kw)) 0)
                 (replicate (length (Bandit.kw_models kw)) 0%R) tt)).
Proof.
  unfold Bandit.__init__. rewrite check_models_forallb.
  destruct (Z.leb_spec (Z.of_nat (length (Bandit.kw_models kw))) 1) as [Hle|Hgt].
  - left. split; [left; lia|reflexivity].
  - destruct (forallb _ _) eqn:Hall.
    + right. split; [lia|]. split; reflexivity.
    + left. split; [right; reflexivity|reflexivity].
Qed.

Lemma eg_init_sound (eps : R) (decay : option R) (kw : Bandit.kwargs)
    (s : Self EpsilonGreedyBandit.attrs) :
  EpsilonGreedyBandit.__init__ eps decay kw = Ok s ->
  sound eg_attrs_ok (mkWorld s []) /\ fresh_stats s /\ _n_iter s = 0
  /\ models s = Bandit.kw_models kw
  /\ ext s = {| EpsilonGreedyBandit.epsilon := eps;
                EpsilonGreedyBandit.epsilon_decay := decay;
                EpsilonGreedyBandit._starting_epsilon :=
                  if truthy_float decay then Some eps else None |}.
Proof.
  unfold EpsilonGreedyBandit.__init__.
  destruct (bandit_init_cases kw) as [[_ ->]|(Hlen & _ & ->)]; [discriminate|].
  intros Hs.
  assert (Hsum : np.sum (replicate (length (Bandit.kw_models kw)) 0) = 0)
    by apply np_sum_zeros.
  destruct (Bandit.kw_reward_scaler kw) eqn:Hsc; simpl in Hs;
    injection Hs as <-; simpl.
  all: unfold sound, well_formed, fresh_stats, eg_attrs_ok; simpl.
  all: rewrite !length_replicate.
  all: repeat split; try reflexivity; try assumption; try congruence.
  all: intros Ht; rewrite Ht; congruence.
Qed.

Lemma ucb_init_cases (delta : option R) (explore : Z) (kw : Bandit.kwargs) :
  UCBBandit.__init__ delta explore kw
  = match Bandit.__init__ kw with
    | Raise e => Raise e
    | Ok s =>
        match delta with
        | Some d =>
            if Rge_dec d 1 then Raise ValueError
            else if Rle_dec d 0 then Raise ValueError
            else Ok (set_reward_scaler
                       (Some (default StandardScaler (reward_scaler s)))
                       (set_ext {| UCBBandit.delta := Some d;
                                   UCBBandit.explore_each_arm := explore |} s))
        | None =>
            Ok (set_reward_scaler
                  (Some (default StandardScaler (reward_scaler s)))
                  (set_ext {| UCBBandit.delta := None;
                              UCBBandit.explore_each_arm := explore |} s))
        end
    end.
Proof.
  unfold UCBBandit.__init__.
  destruct (Bandit.__init__ kw) as [s|e]; [|reflexivity].
  destruct s as [ms sc mt pe smv mv spp sp na ni N av []].
  destruct delta as [d|]; simpl.
  - destruct (Rge_dec d 1); [reflexivity|].
    destruct (Rle_dec d 0); [reflexivity|].
    destruct sc; reflexivity.
  - destruct sc; reflexivity.
Qed.

Lemma ucb_init_sound (delta : option R) (explore : Z) (kw : Bandit.kwargs)
    (s : Self UCBBandit.attrs) :
  UCBBandit.__init__ delta explore kw = Ok s ->
  sound ucb_attrs_ok (mkWorld s []) /\ fresh_stats s /\ _n_iter s = 0
  /\ models s = Bandit.kw_models kw
  /\ ext s = {| UCBBandit.delta := delta;
                UCBBandit.explore_each_arm := explore |}.
Proof.
  rewrite ucb_init_cases.
  destruct (bandit_init_cases kw) as [[_ ->]|(Hlen & _ & ->)]; [discriminate|].
  assert (Hsum : np.sum (replicate (length (Bandit.kw_models kw)) 0) = 0)
    by apply np_sum_zeros.
  assert (Hok : forall d, delta = Some d -> ~ (d >= 1)%R -> ~ (d <= 0)%R ->
                ucb_attrs_ok {| UCBBandit.delta := delta;
                                UCBBandit.explore_each_arm := explore |}).
  { intros d -> Hlt Hgt d' Hd'. simpl in Hd'. injection Hd' as <-. lra. }
  assert (Hnone : ucb_attrs_ok {| UCBBandit.delta := None;
                                  UCBBandit.explore_each_arm := explore |}).
  { intros d' Hd'. discriminate. }
  destruct delta as [d|].
  - destruct (Rge_dec d 1) as [|Hlt]; [discriminate|].
    destruct (Rle_dec d 0) as [|Hgt]; [discriminate|].
    specialize (Hok d eq_refl Hlt Hgt).
    intros Hs. injection Hs as <-.
    split; [split; [|split; [exact Hok|exact Hsum]]|].
    + unfold well_formed; simpl. rewrite !length_replicate.
      repeat split; try reflexivity; try assumption; congruence.
    + unfold fresh_stats; simpl. repeat split; reflexivity.
  - intros Hs. injection Hs as <-.
    split; [split; [|split; [exact Hnone|exact Hsum]]|].
    + unfold well_formed; simpl. rewrite !length_replicate.
      repeat split; try reflexivity; try assumption; congruence.
    + unfold fresh_stats; simpl. repeat split; reflexivity.
Qed.

End Constructors.

(** ** The invariant along the life of an object *)

Lemma history_app (tr1 tr2 : list Event) :
  history (tr1 ++ tr2) = history tr1 ++ history tr2.
Proof.
  induction tr1 as [|ev tr1 IH]; simpl; [reflexivity|].
  destruct ev; simpl; rewrite ?IH; reflexivity.
Qed.

Section Reachable.
Context `{Collaborators} {E : Type}.
Variable _pull_arm : Rng -> Cmd E nat.
Variable _update_arm : nat -> R -> Cmd E unit.
Variable _pred_func : Model -> X -> Y.
Variable P : E -> Prop.
Variable update_ext : Self E -> E.

Hypothesis pull_ok : forall g w,
  rng_ok g -> well_formed (self w) -> P (ext (self w)) ->
  exists arm, _pull_arm g w = Ok (arm, w) /\ (arm < _n_arms (self w))%nat.
Hypothesis update_ok : forall arm r w,
  P (ext (self w)) ->
  _update_arm arm r w
  = Ok (tt, mkWorld (set_ext (update_ext (self w)) (self w)) (trace w))
  /\ P (update_ext (self w)).

Lemma learn_one_sound (g : Rng) (x : X) (y : Y) (w : World E) :
  rng_ok g -> sound P w ->
  exists w' arm n,
    Bandit.learn_one _pull_arm _update_arm g x y w = Ok (tt, w')
    /\ sound P w'
    /\ _n_iter (self w') = _n_iter (self w) + 1
    /\ _N (self w) !! arm = Some n
    /\ _N (self w') = <[arm := n + 1]> (_N (self w)).
Proof.
  intros Hg (Hwf & HP & Hsum).
  destruct (learn_one_spec _pull_arm _update_arm P update_ext pull_ok update_ok
              g x y w Hg Hwf HP)
    as (arm & m & sc & n & avg & _ & Harm & Hm & Hsc & HN & Ha & w' & Hrun
        & Hna & Hms & _ & Hsc' & Hni & HN' & Ha' & _ & HP' & _).
  exists w', arm, n. split; [exact Hrun|].
  destruct Hwf as (Hn2 & Hlm & HlN & Hla & _).
  split; [|auto].
  split; [|split; [exact HP'|]].
  - unfold well_formed.
    rewrite Hna, Hms, HN', Ha', Hsc', !length_insert. repeat split; auto.
  - rewrite HN', Hni, (np_sum_insert _ _ n) by exact HN. lia.
Qed.

Lemma add_models_sound (a : PyArg) (w w' : World E) :
  sound P w -> Bandit.add_models a w = Ok (tt, w') -> sound P w'.
Proof.
  intros ((Hn2 & Hlm & HlN & Hla & Hsc) & HP & Hsum) Hrun.
  apply add_models_inv in Hrun as (l & -> & Hrun).
  rewrite add_models_list in Hrun. injection Hrun as <-.
  unfold sound, well_formed. simpl.
  rewrite !length_app, !length_replicate, np_sum_app, np_sum_zeros.
  repeat split; auto; lia.
Qed.

Lemma predict_one_frame (g : Rng) (x : X) (w w' : World E) (y_pred : Y) :
  rng_ok g -> sound P w ->
  Bandit.predict_one _pull_arm _pred_func g x w = Ok (y_pred, w') ->
  self w' = self w /\ history (trace w') = history (trace w).
Proof.
  intros Hg (Hwf & HP & _) Hrun.
  destruct (predict_one_spec _pull_arm P pull_ok _pred_func g x w Hg Hwf HP)
    as (arm & m & _ & _ & Hp).
  rewrite Hp in Hrun. injection Hrun as _ <-. simpl.
  split; [reflexivity|]. rewrite history_app. simpl. apply app_nil_r.
Qed.

Lemma reachable_sound (s0 : Self E) (w : World E) :
  sound P (mkWorld s0 []) ->
  reachable (Bandit.learn_one _pull_arm _update_arm)
    (Bandit.predict_one _pull_arm _pred_func) s0 w ->
  sound P w.
Proof.
  intros H0 Hreach.
  induction Hreach as [|w g x y w' _ IH Hg Hrun|w g x yp w' _ IH Hg Hrun
                       |w a w' _ IH Hrun].
  - exact H0.
  - destruct (learn_one_sound g x y w Hg IH) as (w1 & arm & n & Hrun1 & Hs & _).
    congruence.
  - destruct (predict_one_frame g x w w' yp Hg IH Hrun) as [Hself _].
    unfold sound. rewrite Hself. exact IH.
  - exact (add_models_sound a w w' IH Hrun).
Qed.

End Reachable.

(** ** The statistics along the life of an object *)

Lemma rewards_of_out_of_range (n arm : nat) (us : list (nat * R)) :
  Forall (fun u => (fst u < n)%nat) us -> (n <= arm)%nat ->
  rewards_of arm us = [].
Proof.
  intros Hus Harm. unfold rewards_of.
  induction Hus as [|[a r] us Ha _ IH]; [reflexivity|].
  simpl in Ha. rewrite filter_cons_False by (simpl; lia). exact IH.
Qed.

Section Tracking.
Context `{Collaborators} {E : Type}.
Variable _pull_arm : Rng -> Cmd E nat.
Variable _update_arm : nat -> R -> Cmd E unit.
Variable _pred_func : Model -> X -> Y.
Variable P : E -> Prop.
Variable update_ext : Self E -> E.

Hypothesis pull_ok : forall g w,
  rng_ok g -> well_formed (self w) -> P (ext (self w)) ->
  exists arm, _pull_arm g w = Ok (arm, w) /\ (arm < _n_arms (self w))%nat.
Hypothesis update_ok : forall arm r w,
  P (ext (self w)) ->
  _update_arm arm r w
  = Ok (tt, mkWorld (set_ext (update_ext (self w)) (self w)) (trace w))
  /\ P (update_ext (self w)).

Lemma history_bookkeeping (s : Self E) : history (bookkeeping_events s) = [].
Proof.
  unfold bookkeeping_events.
  destruct (print_every s) as [p|];
    [destruct (negb (p =? 0)); [destruct (_ mod p =? 0)|]|];
    destruct (save_percentage_pulled s); destruct (save_metric_values s);
    reflexivity.
Qed.

Lemma learn_one_tracked (g : Rng) (x : X) (y : Y) (w : World E) :
  rng_ok g -> sound P w -> tracked w ->
  exists w', Bandit.learn_one _pull_arm _update_arm g x y w = Ok (tt, w')
             /\ tracked w'.
Proof.
  intros Hg (Hwf & HP & _) (Htr & Hin).
  destruct (learn_one_spec _pull_arm _update_arm P update_ext pull_ok update_ok
              g x y w Hg Hwf HP)
    as (arm & m & sc & n & avg & _ & Harm & _ & _ & HN & Ha & w' & Hrun
        & Hna & _ & _ & _ & _ & HN' & Ha' & _ & _ & Htrace).
  exists w'. split; [exact Hrun|].
  set (r := reward_of (self w) m sc x y) in *.
  assert (Hhist : history (trace w') = history (trace w) ++ [(arm, r)]).
  { rewrite Htrace, !history_app, history_bookkeeping, app_nil_r.
    reflexivity. }
  unfold tracked. rewrite Hhist. split.
  - destruct (update_internals_track w (history (trace w)) arm r Htr Harm)
      as (w1 & Hw1 & Hn1 & Htr1).
    rewrite (update_internals_ok w arm r n avg HN Ha) in Hw1.
    injection Hw1 as <-. simpl in Hn1, Htr1.
    intros a Hlt. rewrite Hna in Hlt.
    specialize (Htr1 a Hlt). simpl in Htr1.
    rewrite HN', Ha'. exact Htr1.
  - rewrite Hna. apply Forall_app. split; [exact Hin|].
    constructor; [exact Harm|constructor].
Qed.

Lemma add_models_tracked (a : PyArg) (w w' : World E) :
  sound P w -> tracked w -> Bandit.add_models a w = Ok (tt, w') -> tracked w'.
Proof.
  intros ((_ & _ & HlN & Hla & _) & _) (Htr & Hin) Hrun.
  apply add_models_inv in Hrun as (l & -> & Hrun).
  rewrite add_models_list in Hrun. injection Hrun as <-.
  unfold tracked. simpl. split.
  - intros arm Harm. simpl in Harm |- *.
    destruct (decide (arm < _n_arms (self w))%nat) as [Hold|Hnew].
    + rewrite !lookup_app_l by lia. exact (Htr arm Hold).
    + rewrite (rewards_of_out_of_range (_n_arms (self w))) by (auto; lia).
      rewrite !lookup_app_r by lia. simpl.
      rewrite !lookup_replicate_2 by lia.
      split; [reflexivity|]. exists 0%R. split; [reflexivity|lra].
  - eapply Forall_impl; [exact Hin|]. simpl. intros u Hu. lia.
Qed.

Lemma reachable_tracked (s0 : Self E) (w : World E) :
  sound P (mkWorld s0 []) -> fresh_stats s0 ->
  reachable (Bandit.learn_one _pull_arm _update_arm)
    (Bandit.predict_one _pull_arm _pred_func) s0 w ->
  tracked w.
Proof.
  intros H0 Hfresh Hreach.
  induction Hreach as [|w g x y w' Hr IH Hg Hrun|w g x yp w' Hr IH Hg Hrun
                       |w a w' Hr IH Hrun].
  - split; [apply fresh_stats_track; exact Hfresh|constructor].
  - pose proof (reachable_sound _ _ _ _ _ pull_ok update_ok s0 w H0 Hr) as Hs.
    destruct (learn_one_tracked g x y w Hg Hs IH) as (w1 & Hrun1 & Ht).
    congruence.
  - pose proof (reachable_sound _ _ _ _ _ pull_ok update_ok s0 w H0 Hr) as Hs.
    destruct (predict_one_frame _ _ _ pull_ok g x w w' yp Hg Hs Hrun)
      as [Hself Hhist].
    unfold tracked. rewrite Hself, Hhist. exact IH.
  - pose proof (reachable_sound _ _ _ _ _ pull_ok update_ok s0 w H0 Hr) as Hs.
    exact (add_models_tracked a w w' Hs IH Hrun).
Qed.


End Tracking.

(** ** predict_one *)

Section PredictOne.
Context `{Collaborators} {E : Type}.
Variable _pull_arm : Rng -> Cmd E nat.
Variable _pred_func : Model -> X -> Y.
Hypothesis pull_frame : forall g w w' arm,
  _pull_arm g w = Ok (arm, w') -> w' = w.

Lemma predict_one_inv (g : Rng) (x : X) (w w' : World E) (y_pred : Y) :
  Bandit.predict_one _pull_arm _pred_func g x w = Ok (y_pred, w') ->
  self w' = self w
  /\ exists arm m, _pull_arm g w = Ok (arm, w)
       /\ models (self w) !! arm = Some m
       /\ y_pred = _pred_func m x
       /\ trace w' = trace w ++ [EvPullArm arm; EvPredict arm].
Proof.
  unfold Bandit.predict_one, Bandit.__getitem__. unfold bind at 1.
  destruct (_pull_arm g w) as [[arm w1]|e] eqn:Hpull; [|discriminate].
  apply pull_frame in Hpull as Hw1. subst w1.
  step. rewrite bind_bind, bind_get. norm.
  destruct (models (self w) !! arm) as [m|] eqn:Hm.
  - step. step. unfold ret. intros Hr. injection Hr as <- <-. simpl.
    split; [reflexivity|]. exists arm, m.
    rewrite <- app_assoc. auto.
  - unfold bind, raise. discriminate.
Qed.

End PredictOne.

(** ** The events of a cycle *)

Lemma cycle_trained_before (arm : nat) (n_iter : Z) (reward : R)
    (tail : list Event) :
  trained_before_statistics (cycle_events arm n_iter reward ++ tail).
Proof.
  exists 1%nat, 3%nat, 6%nat, 7%nat, 8%nat.
  repeat split; try reflexivity; lia.
Qed.

Lemma cycle_not_trained_after (arm : nat) (n_iter : Z) (reward : R)
    (tail : list Event) :
  ~ trained_after_statistics (cycle_events arm n_iter reward ++ tail).
Proof.
  intros (l & i & j & k & Hl & Hi & _ & _ & Hil & _).
  simpl in Hl, Hi. injection Hl as <-. injection Hi as <-. lia.
Qed.

Section Cycles.
Context `{Collaborators}.

Lemma eg_learn_one_trace (g : Rng) (x : X) (y : Y)
    (w : World EpsilonGreedyBandit.attrs) :
  rng_ok g -> sound eg_attrs_ok w ->
  exists w' arm reward,
    EpsilonGreedyRegressor.learn_one g x y w = Ok (tt, w')
    /\ trace w' = trace w
                  ++ cycle_events arm (_n_iter (self w) + 1) reward
                  ++ bookkeeping_events (self w).
Proof.
  intros Hg (Hwf & HP & _).
  destruct (learn_one_spec _ _ _ _ eg_pull_ok eg_update_ok g x y w Hg Hwf HP)
    as (arm & m & sc & n & avg & _ & _ & _ & _ & _ & _ & w' & Hrun & Hrest).
  exists w', arm, (reward_of (self w) m sc x y).
  split; [exact Hrun|]. apply Hrest.
Qed.

Lemma ucb_learn_one_trace (g : Rng) (x : X) (y : Y)
    (w : World UCBBandit.attrs) :
  rng_ok g -> sound ucb_attrs_ok w ->
  exists w' arm reward,
    UCBRegressor.learn_one g x y w = Ok (tt, w')
    /\ trace w' = trace w
                  ++ cycle_events arm (_n_iter (self w) + 1) reward
                  ++ bookkeeping_events (self w).
Proof.
  intros Hg (Hwf & HP & _).
  destruct (learn_one_spec _ _ _ _ ucb_pull_ok ucb_update_ok g x y w Hg Hwf HP)
    as (arm & m & sc & n & avg & _ & _ & _ & _ & _ & _ & w' & Hrun & Hrest).
  exists w', arm, (reward_of (self w) m sc x y).
  split; [exact Hrun|]. apply Hrest.
Qed.

End Cycles.

(** ** Epsilon decay *)

Lemma exp_monotone (x y : R) : (x <= y)%R -> (exp x <= exp y)%R.
Proof.
  intros [Hlt| ->]; [|lra]. apply Rlt_le, exp_increasing, Hlt.
Qed.

Section Decay.
Context `{Collaborators}.
Import EpsilonGreedyBandit.

Lemma eg_update_ext_decay (eps0 d : R) (s3 : Self attrs) (e : attrs) (n : Z) :
  ext s3 = e -> _n_iter s3 = n + 1 ->
  epsilon_decay e = Some d ->
  _starting_epsilon e = (if truthy_float (Some d) then Some eps0 else None) ->
  epsilon e = (eps0 * exp (- d * IZR n))%R ->
  epsilon_decay (eg_update_ext s3) = Some d
  /\ _starting_epsilon (eg_update_ext s3)
     = (if truthy_float (Some d) then Some eps0 else None)
  /\ epsilon (eg_update_ext s3) = (eps0 * exp (- d * IZR (n + 1)))%R.
Proof.
  intros He Hn Hd Hst Heps. unfold eg_update_ext. rewrite He, Hn, Hd, Hst.
  simpl. destruct (Req_dec_T d 0) as [Hd0|Hd0]; simpl.
  - rewrite Hd. split; [reflexivity|]. rewrite Hst. simpl.
    destruct (Req_dec_T d 0); [|contradiction]. split; [reflexivity|].
    rewrite Heps, Hd0. f_equal. f_equal. ring.
  - destruct (Req_dec_T d 0); [contradiction|].
    split; [reflexivity|]. split; [reflexivity|]. f_equal. f_equal. ring.
Qed.

Lemma eg_learn_one_decay (eps0 d : R) (g : Rng) (x : X) (y : Y)
    (w : World attrs) :
  rng_ok g -> sound eg_attrs_ok w -> eg_decay_inv eps0 d (self w) ->
  exists w',
    EpsilonGreedyRegressor.learn_one g x y w = Ok (tt, w')
    /\ _n_iter (self w') = _n_iter (self w) + 1
    /\ eg_decay_inv eps0 d (self w').
Proof.
  intros Hg (Hwf & HP & _) (Hd & Hst & Heps).
  destruct (learn_one_spec _ _ _ _ eg_pull_ok eg_update_ok g x y w Hg Hwf HP)
    as (arm & m & sc & n & avg & _ & _ & _ & _ & _ & _ & w' & Hrun
        & _ & _ & _ & _ & Hni & _ & _ & (s3 & He' & He3 & Hn3) & _).
  exists w'. split; [exact Hrun|]. split; [exact Hni|].
  unfold eg_decay_inv. rewrite He', Hni.
  exact (eg_update_ext_decay eps0 d s3 _ _ He3 Hn3 Hd Hst Heps).
Qed.

Lemma eg_reachable_decay (eps0 d : R) (kw : Bandit.kwargs) (s0 : Self attrs)
    (w : World attrs) :
  __init__ eps0 (Some d) kw = Ok s0 ->
  reachable EpsilonGreedyRegressor.learn_one
    EpsilonGreedyRegressor.predict_one s0 w ->
  sound eg_attrs_ok w /\ eg_decay_inv eps0 d (self w).
Proof.
  intros Hinit Hreach.
  apply eg_init_sound in Hinit as (H0 & _ & Hn0 & _ & He0).
  split; [exact (reachable_sound _ _ _ _ _ eg_pull_ok eg_update_ok s0 w H0 Hreach)|].
  induction Hreach as [|w g x y w' Hr IH Hg Hrun|w g x yp w' Hr IH Hg Hrun
                       |w a w' Hr IH Hrun].
  - unfold eg_decay_inv. simpl. rewrite He0, Hn0. simpl.
    split; [reflexivity|]. split; [reflexivity|].
    rewrite Rmult_0_r, exp_0. lra.
  - pose proof (reachable_sound _ _ _ _ _ eg_pull_ok eg_update_ok s0 w H0 Hr) as Hs.
    destruct (eg_learn_one_decay eps0 d g x y w Hg Hs IH) as (w1 & Hrun1 & _ & Hinv).
    congruence.
  - pose proof (reachable_sound _ _ _ _ _ eg_pull_ok eg_update_ok s0 w H0 Hr) as Hs.
    destruct (predict_one_frame _ _ _ eg_pull_ok g x w w' yp Hg Hs Hrun)
      as [Hself _].
    unfold eg_decay_inv. rewrite Hself. exact IH.
  - apply add_models_inv in Hrun as (l & -> & Hrun).
    rewrite add_models_list in Hrun. injection Hrun as <-. exact IH.
Qed.

End Decay.

Section Claims.
Context `{Collaborators}.

(** C5. [predict_one] selects an arm with [_pull_arm] and returns the
    prediction of that arm's model; whenever it returns, the object is the one
    it was called on, so [_N], [_average_reward], [_n_iter], the metric and
    the reward scaler are unchanged, and the only calls it made are the
    selection and that model's [predict_one]. On a well-formed object, with a
    random source that behaves as numpy's, it does return. For both
    regressors. *)
Theorem C5_predict_one_mutates_nothing :
  (forall g x w w' y_pred,
     EpsilonGreedyRegressor.predict_one g x w = Ok (y_pred, w') ->
     self w' = self w /\ same_statistics (self w) (self w')
     /\ exists arm m, EpsilonGreedyBandit._pull_arm g w = Ok (arm, w)
          /\ models (self w) !! arm = Some m
          /\ y_pred = model_predict_one m x
          /\ trace w' = trace w ++ [EvPullArm arm; EvPredict arm])
  /\ (forall g x w, rng_ok g -> well_formed (self w) ->
        exists y_pred w',
          EpsilonGreedyRegressor.predict_one g x w = Ok (y_pred, w'))
  /\ (forall g x w w' y_pred,
        UCBRegressor.predict_one g x w = Ok (y_pred, w') ->
        self w' = self w /\ same_statistics (self w) (self w')
        /\ exists arm m, UCBBandit._pull_arm g w = Ok (arm, w)
             /\ models (self w) !! arm = Some m
             /\ y_pred = model_predict_one m x
             /\ trace w' = trace w ++ [EvPullArm arm; EvPredict arm])
  /\ (forall g x w, rng_ok g -> well_formed (self w) ->
        exists y_pred w', UCBRegressor.predict_one g x w = Ok (y_pred, w')).
Proof.
  split; [|split; [|split]].
  - intros g x w w' y_pred Hrun.
    apply (predict_one_inv _ _ eg_pull_arm_frame) in Hrun as [Hself Hrest].
    split; [exact Hself|]. split; [|exact Hrest].
    unfold same_statistics. rewrite Hself. auto.
  - intros g x w Hg Hwf.
    destruct (predict_one_spec EpsilonGreedyBandit._pull_arm (fun _ => True)
                (fun g w Hg Hwf _ => eg_pull_total g w Hg Hwf)
                EpsilonGreedyRegressor._pred_func g x w Hg Hwf I)
      as (arm & m & _ & _ & Hrun).
    eexists _, _. exact Hrun.
  - intros g x w w' y_pred Hrun.
    apply (predict_one_inv _ _ ucb_pull_arm_frame) in Hrun as [Hself Hrest].
    split; [exact Hself|]. split; [|exact Hrest].
    unfold same_statistics. rewrite Hself. auto.
  - intros g x w Hg Hwf.
    destruct (predict_one_spec UCBBandit._pull_arm (fun _ => True)
                (fun g w Hg Hwf _ => ucb_pull_total g w Hg Hwf)
                UCBRegressor._pred_func g x w Hg Hwf I)
      as (arm & m & _ & _ & Hrun).
    eexists _, _. exact Hrun.
Qed.


(** C2, as the code has it. In every [learn_one] call on an object reachable
    from a constructor, the events the call appends to the trace are those of
    [cycle_events] followed by the optional bookkeeping: the chosen model is
    trained right after its prediction was scored by the metric, and before
    [_n_iter] is incremented, the arm's statistics are updated and
    [_update_arm] is invoked, in that order. For both regressors. *)
Theorem C2_model_trained_before_statistics :
  (forall eps decay kw s0 w g x y,
     EpsilonGreedyBandit.__init__ eps decay kw = Ok s0 ->
     reachable EpsilonGreedyRegressor.learn_one
       EpsilonGreedyRegressor.predict_one s0 w ->
     rng_ok g ->
     exists w' arm reward evs,
       EpsilonGreedyRegressor.learn_one g x y w = Ok (tt, w')
       /\ trace w' = trace w ++ evs
       /\ evs = cycle_events arm (_n_iter (self w) + 1) reward
                ++ bookkeeping_events (self w)
       /\ trained_before_statistics evs)
  /\ (forall delta explore kw s0 w g x y,
        UCBBandit.__init__ delta explore kw = Ok s0 ->
        reachable UCBRegressor.learn_one UCBRegressor.predict_one s0 w ->
        rng_ok g ->
        exists w' arm reward evs,
          UCBRegressor.learn_one g x y w = Ok (tt, w')
          /\ trace w' = trace w ++ evs
          /\ evs = cycle_events arm (_n_iter (self w) + 1) reward
                   ++ bookkeeping_events (self w)
          /\ trained_before_statistics evs).
Proof.
  split.
  - intros eps decay kw s0 w g x y Hinit Hreach Hg.
    apply eg_init_sound in Hinit as (H0 & _).
    pose proof (reachable_sound _ _ _ _ _ eg_pull_ok eg_update_ok s0 w H0 Hreach)
      as Hs.
    destruct (eg_learn_one_trace g x y w Hg Hs) as (w' & arm & r & Hrun & Htr).
    exists w', arm, r, (cycle_events arm (_n_iter (self w) + 1) r
                        ++ bookkeeping_events (self w)).
    split; [exact Hrun|]. split; [exact Htr|]. split; [reflexivity|].
    apply cycle_trained_before.
  - intros delta explore kw s0 w g x y Hinit Hreach Hg.
    apply ucb_init_sound in Hinit as (H0 & _).
    pose proof (reachable_sound _ _ _ _ _ ucb_pull_ok ucb_update_ok s0 w H0 Hreach)
      as Hs.
    destruct (ucb_learn_one_trace g x y w Hg Hs) as (w' & arm & r & Hrun & Htr).
    exists w', arm, r, (cycle_events arm (_n_iter (self w) + 1) r
                        ++ bookkeeping_events (self w)).
    split; [exact Hrun|]. split; [exact Htr|]. split; [reflexivity|].
    apply cycle_trained_before.
Qed.

(** C9. An epsilon-greedy ensemble built with [epsilon = eps0] and
    [epsilon_decay = d] keeps, on every object reachable from the constructor,
    [epsilon = eps0 * exp(-d * _n_iter)]; a further [learn_one] returns, adds
    one to [_n_iter] and leaves epsilon at the same function of the new
    counter, whatever the random source drew; and when [d >= 0] and
    [eps0 >= 0] the new epsilon is not greater than the old one. *)
Theorem C9_epsilon_follows_decay (eps0 d : R) (kw : Bandit.kwargs)
    (s0 : Self EpsilonGreedyBandit.attrs) (w : World EpsilonGreedyBandit.attrs) :
  EpsilonGreedyBandit.__init__ eps0 (Some d) kw = Ok s0 ->
  reachable EpsilonGreedyRegressor.learn_one
    EpsilonGreedyRegressor.predict_one s0 w ->
  EpsilonGreedyBandit.epsilon (ext (self w))
  = (eps0 * exp (- d * IZR (_n_iter (self w))))%R
  /\ forall g x y, rng_ok g ->
     exists w',
       EpsilonGreedyRegressor.learn_one g x y w = Ok (tt, w')
       /\ _n_iter (self w') = _n_iter (self w) + 1
       /\ EpsilonGreedyBandit.epsilon (ext (self w'))
          = (eps0 * exp (- d * IZR (_n_iter (self w'))))%R
       /\ ((0 <= d)%R -> (0 <= eps0)%R ->
           (EpsilonGreedyBandit.epsilon (ext (self w'))
            <= EpsilonGreedyBandit.epsilon (ext (self w)))%R).
Proof.
  intros Hinit Hreach.
  destruct (eg_reachable_decay eps0 d kw s0 w Hinit Hreach) as (Hs & Hinv).
  pose proof Hinv as (_ & _ & Heps).
  split; [exact Heps|].
  intros g x y Hg.
  destruct (eg_learn_one_decay eps0 d g x y w Hg Hs Hinv)
    as (w' & Hrun & Hni & (_ & _ & Heps')).
  exists w'. split; [exact Hrun|]. split; [exact Hni|]. split; [exact Heps'|].
  intros Hd He. rewrite Heps', Heps, Hni, plus_IZR.
  apply Rmult_le_compat_l; [exact He|].
  apply exp_monotone. nra.
Qed.

(** C6. On any object, [add_models] with a list of [k] models returns,
    adds [k] to [_n_arms], appends the models, [k] zero pull counts and [k]
    zero averages, and leaves [_n_iter] and the entries of the arms already
    there as they were; with anything that is not a list it raises
    [TypeError], a configuration error. *)
Theorem C6_add_models_appends_zero_statistics {E : Type} (w : World E)
    (new_models : PyArg) :
  match new_models with
  | PyList l =>
      exists w',
        Bandit.add_models new_models w = Ok (tt, w')
        /\ _n_arms (self w') = (_n_arms (self w) + length l)%nat
        /\ models (self w') = models (self w) ++ l
        /\ _N (self w') = _N (self w) ++ replicate (length l) 0
        /\ _average_reward (self w')
           = _average_reward (self w) ++ replicate (length l) 0%R
        /\ _n_iter (self w') = _n_iter (self w)
        /\ (forall i, (i < length (_N (self w)))%nat ->
              _N (self w') !! i = _N (self w) !! i)
        /\ (forall i, (i < length (_average_reward (self w)))%nat ->
              _average_reward (self w') !! i = _average_reward (self w) !! i)
  | _ =>
      Bandit.add_models new_models w = Raise TypeError
      /\ ConfigurationError TypeError
  end.
Proof.
  destruct new_models as [l|l|m|];
    try (split; [reflexivity|right; reflexivity]).
  eexists. split; [apply add_models_list|]. simpl.
  repeat split; try reflexivity.
  - intros i Hi. apply lookup_app_l. exact Hi.
  - intros i Hi. apply lookup_app_l. exact Hi.
Qed.

(** C7, as the code has it. [add_models] does not consult [works_with]: any
    list of models is appended, whether or not the metric works with them.
    The pairing is checked by the constructors only: when the metric does not
    work with one of the supplied models, [Bandit.__init__] and the
    constructors of both policies raise [ValueError]. *)
Theorem C7_add_models_does_not_validate :
  (forall (E : Type) (w : World E) (l : list Model),
     exists w', Bandit.add_models (PyList l) w = Ok (tt, w')
                /\ models (self w') = models (self w) ++ l)
  /\ (forall kw : Bandit.kwargs,
        (exists m, m ∈ Bandit.kw_models kw
                   /\ works_with (Bandit.kw_metric kw) m = false) ->
        Bandit.__init__ kw = Raise ValueError
        /\ (forall eps decay,
              EpsilonGreedyBandit.__init__ eps decay kw = Raise ValueError)
        /\ (forall delta explore,
              UCBBandit.__init__ delta explore kw = Raise ValueError)).
Proof.
  split.
  - intros E w l. eexists. split; [apply add_models_list|reflexivity].
  - intros kw (m & Hin & Hm).
    assert (Hinit : Bandit.__init__ kw = Raise ValueError).
    { destruct (bandit_init_cases kw) as [[_ Hr]|(_ & Hall & _)]; [exact Hr|].
      rewrite forallb_forall in Hall.
      apply list_elem_of_In in Hin. rewrite (Hall m Hin) in Hm. discriminate. }
    split; [exact Hinit|]. split.
    + intros eps decay. unfold EpsilonGreedyBandit.__init__.
      rewrite Hinit. reflexivity.
    + intros delta explore. unfold UCBBandit.__init__.
      rewrite Hinit. reflexivity.
Qed.




End Claims.

(** C2 as stated fails. The first [learn_one] call on a freshly built
    epsilon-greedy ensemble returns, and among the events it produced the
    training of the chosen model does not come after the increment of
    [_n_iter], the update of the arm's statistics and [_update_arm]. *)
Lemma C2_counterexample :
  exists w1,
    @EpsilonGreedyRegressor.learn_one Demo.collab (Demo.rng_last (1 / 2)) tt 4
      (mkWorld (Demo.eg_fresh 0 None [1; 5; 3]) [])
    = Ok (tt, w1)
    /\ ~ trained_after_statistics (trace w1).
Proof.
  destruct (eg_init_sound 0 None (Demo.kw [1; 5; 3]) _ (demo_eg_init 0 None))
    as (Hs & _).
  assert (Hg : rng_ok (Demo.rng_last (1 / 2))).
  { split; [simpl; lra|intros n Hn; simpl; lia]. }
  destruct (eg_learn_one_trace (Demo.rng_last (1 / 2)) (tt : @X Demo.collab)
              (4 : @Y Demo.collab) _ Hg Hs)
    as (w1 & arm & r & Hrun & Htr).
  exists w1. split; [exact Hrun|].
  rewrite Htr. simpl trace. rewrite app_nil_l.
  apply cycle_not_trained_after.
Qed.

(** C7 as stated fails: the metric of the concrete ensemble does not work
    with the model [-1], and [add_models [-1]] appends it all the same. *)
Lemma C7_counterexample :
  exists w',
    @Bandit.add_models Demo.collab _ (@PyList Demo.collab [-1])
      (mkWorld (Demo.eg_fresh 0 None [1; 5; 3]) [])
    = Ok (tt, w')
    /\ models (self w') = [1; 5; 3; -1]
    /\ @works_with Demo.collab (metric (self w')) (-1) = false.
Proof.
  eexists. split; [apply add_models_list|]. split; reflexivity.
Qed.

(** ** The theorems at concrete inputs *)

Lemma demo_rng_last_ok (u : R) : (0 <= u < 1)%R -> rng_ok (Demo.rng_last u).
Proof. intros Hu. split; [exact Hu|intros n Hn; simpl; lia]. Qed.

Lemma demo_half : (0 <= 1 / 2 < 1)%R.
Proof. lra. Qed.


Lemma C2_model_trained_before_statistics_witness :
  let s0 := Demo.eg_fresh 0 None [1; 5; 3] in
  let w := mkWorld s0 [] in
  let g := Demo.rng_last (1 / 2) in
  @EpsilonGreedyBandit.__init__ Demo.collab 0 None (Demo.kw [1; 5; 3]) = Ok s0
  /\ reachable (@EpsilonGreedyRegressor.learn_one Demo.collab)
       (@EpsilonGreedyRegressor.predict_one Demo.collab) s0 w
  /\ rng_ok g
  /\ exists w' arm reward evs,
       @EpsilonGreedyRegressor.learn_one Demo.collab g tt 4 w = Ok (tt, w')
       /\ trace w' = trace w ++ evs
       /\ evs = cycle_events arm (_n_iter (self w) + 1) reward
                ++ bookkeeping_events (self w)
       /\ trained_before_statistics evs.
Proof.
  intros s0 w g.
  assert (Hi : @EpsilonGreedyBandit.__init__ Demo.collab 0 None
                 (Demo.kw [1; 5; 3]) = Ok s0) by reflexivity.
  assert (Hr : reachable (@EpsilonGreedyRegressor.learn_one Demo.collab)
                 (@EpsilonGreedyRegressor.predict_one Demo.collab) s0 w)
    by constructor.
  assert (Hg : rng_ok g) by exact (demo_rng_last_ok _ demo_half).
  split; [exact Hi|]. split; [exact Hr|]. split; [exact Hg|].
  exact (proj1 (@C2_model_trained_before_statistics Demo.collab)
           0%R None (Demo.kw [1; 5; 3]) s0 w g tt 4 Hi Hr Hg).
Defined.

Lemma demo_ucb_pulled_sound : sound ucb_attrs_ok (mkWorld Demo.ucb_pulled []).
Proof.
  split; [|split].
  - unfold well_formed. simpl. repeat split; try reflexivity; try lia.
    discriminate.
  - intros d Hd. discriminate.
  - reflexivity.
Qed.


Lemma C5_predict_one_mutates_nothing_witness :
  let w := mkWorld (Demo.eg_fresh 0 None [1; 5; 3]) [] in
  let g := Demo.rng_last (1 / 2) in
  rng_ok g /\ well_formed (self w)
  /\ exists y_pred w',
       @EpsilonGreedyRegressor.predict_one Demo.collab g tt w = Ok (y_pred, w').
Proof.
  intros w g.
  assert (Hg : rng_ok g) by exact (demo_rng_last_ok _ demo_half).
  assert (Hwf : well_formed (self w)).
  { unfold well_formed. simpl. repeat split; try reflexivity; try lia.
    discriminate. }
  split; [exact Hg|]. split; [exact Hwf|].
  exact (proj1 (proj2 (@C5_predict_one_mutates_nothing Demo.collab))
           g tt w Hg Hwf).
Defined.

Lemma C6_add_models_appends_zero_statistics_witness :
  let w := mkWorld (Demo.eg_fresh 0 None [1; 5; 3]) [] in
  exists w',
    Bandit.add_models (@PyList Demo.collab [7; 8]) w = Ok (tt, w')
    /\ _n_arms (self w') = (_n_arms (self w) + 2)%nat
    /\ models (self w') = models (self w) ++ [7; 8]
    /\ _N (self w') = _N (self w) ++ replicate 2 0
    /\ _average_reward (self w') = _average_reward (self w) ++ replicate 2 0%R
    /\ _n_iter (self w') = _n_iter (self w)
    /\ (forall i, (i < length (_N (self w)))%nat ->
          _N (self w') !! i = _N (self w) !! i)
    /\ (forall i, (i < length (_average_reward (self w)))%nat ->
          _average_reward (self w') !! i = _average_reward (self w) !! i).
Proof.
  intros w.
  exact (C6_add_models_appends_zero_statistics w (@PyList Demo.collab [7; 8])).
Defined.

Lemma C7_add_models_does_not_validate_witness :
  let kw := Demo.kw [1; -1] in
  (exists m, m ∈ Bandit.kw_models kw
             /\ @works_with Demo.collab (Bandit.kw_metric kw) m = false)
  /\ Bandit.__init__ kw = Raise ValueError
  /\ (forall eps decay,
        EpsilonGreedyBandit.__init__ eps decay kw = Raise ValueError)
  /\ (forall delta explore,
        UCBBandit.__init__ delta explore kw = Raise ValueError).
Proof.
  intros kw.
  assert (Hm : exists m, m ∈ Bandit.kw_models kw
                 /\ @works_with Demo.collab (Bandit.kw_metric kw) m = false).
  { exists (-1). split; [|reflexivity].
    apply list_elem_of_In. simpl. right. left. reflexivity. }
  split; [exact Hm|].
  exact (proj2 (@C7_add_models_does_not_validate Demo.collab) kw Hm).
Defined.


Lemma C9_epsilon_follows_decay_witness :
  let s0 := Demo.eg_fresh (1 / 2) (Some 1%R) [1; 5; 3] in
  let w := mkWorld s0 [] in
  @EpsilonGreedyBandit.__init__ Demo.collab (1 / 2) (Some 1%R)
    (Demo.kw [1; 5; 3]) = Ok s0
  /\ reachable (@EpsilonGreedyRegressor.learn_one Demo.collab)
       (@EpsilonGreedyRegressor.predict_one Demo.collab) s0 w
  /\ EpsilonGreedyBandit.epsilon (ext (self w))
     = (1 / 2 * exp (- 1 * IZR (_n_iter (self w))))%R
  /\ forall g x y, rng_ok g ->
     exists w',
       EpsilonGreedyRegressor.learn_one g x y w = Ok (tt, w')
       /\ _n_iter (self w') = _n_iter (self w) + 1
       /\ EpsilonGreedyBandit.epsilon (ext (self w'))
          = (1 / 2 * exp (- 1 * IZR (_n_iter (self w'))))%R
       /\ ((0 <= 1)%R -> (0 <= 1 / 2)%R ->
           (EpsilonGreedyBandit.epsilon (ext (self w'))
            <= EpsilonGreedyBandit.epsilon (ext (self w)))%R).
Proof.
  intros s0 w.
  assert (Hi : @EpsilonGreedyBandit.__init__ Demo.collab (1 / 2) (Some 1%R)
                 (Demo.kw [1; 5; 3]) = Ok s0) by reflexivity.
  assert (Hr : reachable (@EpsilonGreedyRegressor.learn_one Demo.collab)
                 (@EpsilonGreedyRegressor.predict_one Demo.collab) s0 w)
    by constructor.
  split; [exact Hi|]. split; [exact Hr|].
  exact (@C9_epsilon_follows_decay Demo.collab (1 / 2)%R 1%R
           (Demo.kw [1; 5; 3]) s0 w Hi Hr).
Defined.


(** ** The embedding on small inputs *)

Example argmax_first_of_ties : np.argmax [1; 3; 3; 2]%R = Ok 1%nat.
Proof.
  simpl. repeat (destruct (Rlt_dec _ _); try lra). reflexivity.
Qed.

Example argmax_empty : np.argmax [] = Raise ValueError.
Proof. reflexivity. Qed.

Example where_example : np.where_ [true; false; true; true] = [0; 2; 3]%nat.
Proof. reflexivity. Qed.

(** Pull counts [4, 1, 5] give the shares [0.4, 0.1, 0.5]. *)
Example percentage_pulled_example :
  Bandit.percentage_pulled
    (@mkSelf Demo.collab unit [1; 5; 3] (Some tt) tt None false [] false []
       3%nat 10 [4; 1; 5] [0%R; 0%R; 0%R] tt)
  = [(4 / 10)%R; (1 / 10)%R; (5 / 10)%R].
Proof. reflexivity. Qed.

(** A fresh UCB object with [explore_each_arm = 1] explores: every arm is a
    candidate, and the arm returned is the one at the drawn position. *)
Example ucb_explore_example :
  let w := mkWorld (Demo.ucb_fresh None 1 [1; 5; 3]) [] in
  UCBBandit._pull_arm (Demo.rng_last (1 / 2)) w = Ok (2%nat, w)
  /\ UCBBandit._pull_arm (Demo.rng_first (1 / 2)) w = Ok (0%nat, w).
Proof. split; reflexivity. Qed.

(** With every arm pulled twice and averages [0, 1, 0], the bonus is the same
    for all arms and UCB1 returns arm 1. *)
Example ucb_bound_example :
  let w := mkWorld Demo.ucb_pulled [] in
  UCBBandit._pull_arm (Demo.rng_last (1 / 2)) w = Ok (1%nat, w).
Proof.
  intros w. unfold UCBBandit._pull_arm. rewrite bind_get. simpl.
  unfold lift. simpl.
  repeat (destruct (Rlt_dec _ _); try lra). reflexivity.
Qed.


(** * Further properties of the code *)

(** ** Arithmetic of counts and shares *)



Lemma sum_R_shares (a : list Z) (c : R) :
  sum_R (map (fun n => (IZR n / c)%R) a) = (IZR (np.sum a) / c)%R.
Proof.
  induction a as [|x a IH]; simpl.
  - unfold Rdiv. rewrite Rmult_0_l. reflexivity.
  - fold (sum_R (map (fun n => (IZR n / c)%R) a)). fold (np.sum a).
    rewrite IH, plus_IZR. unfold Rdiv. ring.
Qed.


(** ** History buffers and configuration along a cycle *)

Section Lifecycle.
Context `{Collaborators} {E : Type}.
Variable _pull_arm : Rng -> Cmd E nat.
Variable _update_arm : nat -> R -> Cmd E unit.
Variable _pred_func : Model -> X -> Y.
Variable P : E -> Prop.
Variable update_ext : Self E -> E.

Hypothesis pull_ok : forall g w,
  rng_ok g -> well_formed (self w) -> P (ext (self w)) ->
  exists arm, _pull_arm g w = Ok (arm, w) /\ (arm < _n_arms (self w))%nat.
Hypothesis update_ok : forall arm r w,
  P (ext (self w)) ->
  _update_arm arm r w
  = Ok (tt, mkWorld (set_ext (update_ext (self w)) (self w)) (trace w))
  /\ P (update_ext (self w)).

(** What a cycle does to the configuration and to the two history buffers. *)
Lemma learn_one_buffers (g : Rng) (x : X) (y : Y) (w : World E) :
  rng_ok g -> well_formed (self w) -> P (ext (self w)) ->
  exists arm m n,
    _pull_arm g w = Ok (arm, w)
    /\ models (self w) !! arm = Some m
    /\ _N (self w) !! arm = Some n
    /\ exists w',
      Bandit.learn_one _pull_arm _update_arm g x y w = Ok (tt, w')
      /\ (print_every (self w') = print_every (self w)
      /\ save_metric_values (self w') = save_metric_values (self w)
      /\ save_percentage_pulled (self w') = save_percentage_pulled (self w)
      /\ metric_values (self w')
         = (if save_metric_values (self w)
            then metric_values (self w)
                 ++ [metric_eval
                       (metric_update (metric (self w)) (model_predict_one m x) y)
                       (model_predict_one m x) y]
            else metric_values (self w))
      /\ store_percentage_pulled (self w')
         = (if save_percentage_pulled (self w)
            then store_percentage_pulled (self w)
                 ++ [map (fun k => (IZR k
                                    / IZR (np.sum (<[arm := (n + 1)%Z]>
                                                     (_N (self w)))))%R)
                       (<[arm := n + 1]> (_N (self w)))]
            else store_percentage_pulled (self w))).
Proof.
  intros Hg Hwf HP.
  destruct (pull_ok g w Hg Hwf HP) as (arm & Hpull & Harm).
  destruct Hwf as (Hn2 & Hlm & HlN & Hla & Hsc).
  destruct (lookup_lt_is_Some_2 (models (self w)) arm) as [m Hm]; [lia|].
  destruct (lookup_lt_is_Some_2 (_N (self w)) arm) as [n HN]; [lia|].
  destruct (lookup_lt_is_Some_2 (_average_reward (self w)) arm) as [avg Ha]; [lia|].
  destruct (reward_scaler (self w)) as [sc|] eqn:Hsc'; [|congruence].
  exists arm, m, n.
  do 3 (split; [assumption|]).
  destruct (print_every (self w)) as [p|] eqn:Hpe;
    destruct (save_percentage_pulled (self w)) eqn:Hsp;
    destruct (save_metric_values (self w)) eqn:Hsm.
  all: try (destruct (negb (p =? 0)) eqn:Hp0;
            destruct ((_n_iter (self w) + 1) mod p =? 0) eqn:Hmod).
  all: eapply ex_run;
    [ unfold Bandit.learn_one;
      rewrite (bind_run _ _ _ _ _ Hpull); norm;
      step;
      erewrite bind_run by (apply getitem_ok; norm; exact Hm); norm;
      do 5 step;
      erewrite bind_run
        by (apply (compute_scaled_reward_ok _ _ _ sc); exact Hsc'); norm;
      erewrite bind_run
        by (apply (update_internals_ok _ arm _ n avg); norm; assumption); norm;
      step;
      erewrite bind_run by (apply update_ok; exact HP); norm;
      step; rewrite Hpe; unfold truthy_int, when, Bandit._print_info;
      rewrite ?Hp0; norm; rewrite ?Hmod; norm;
      repeat step; rewrite Hsp; norm; repeat step; rewrite Hsm; norm;
      repeat step;
      first [reflexivity | unfold tell, ret; reflexivity]
    | norm; unfold Bandit.percentage_pulled; norm ].
  all: repeat split; first [assumption | reflexivity].
Qed.

End Lifecycle.

Section Bookkeeping.
Context `{Collaborators} {E : Type}.
Variable _pull_arm : Rng -> Cmd E nat.
Variable _update_arm : nat -> R -> Cmd E unit.
Variable _pred_func : Model -> X -> Y.
Variable P : E -> Prop.
Variable update_ext : Self E -> E.

Hypothesis pull_ok : forall g w,
  rng_ok g -> well_formed (self w) -> P (ext (self w)) ->
  exists arm, _pull_arm g w = Ok (arm, w) /\ (arm < _n_arms (self w))%nat.
Hypothesis update_ok : forall arm r w,
  P (ext (self w)) ->
  _update_arm arm r w
  = Ok (tt, mkWorld (set_ext (update_ext (self w)) (self w)) (trace w))
  /\ P (update_ext (self w)).

Lemma learn_one_bookkept (g : Rng) (x : X) (y : Y) (w : World E) :
  rng_ok g -> sound P w -> bookkept (self w) ->
  exists w',
    Bandit.learn_one _pull_arm _update_arm g x y w = Ok (tt, w')
    /\ bookkept (self w')
    /\ print_every (self w') = print_every (self w)
    /\ save_metric_values (self w') = save_metric_values (self w)
    /\ save_percentage_pulled (self w') = save_percentage_pulled (self w).
Proof.
  intros Hg (Hwf & HP & Hsum) (Hni0 & Hnn & Hzero & Hmv & Hst & Hsnap).
  destruct (learn_one_spec _pull_arm _update_arm P update_ext pull_ok update_ok
              g x y w Hg Hwf HP)
    as (arm & m & sc & n & avg & Hpull & Harm & Hm & _ & HN & Ha & w' & Hrun
        & _ & _ & _ & _ & Hni & HN' & Ha' & _).
  destruct (learn_one_buffers _pull_arm _update_arm P update_ext pull_ok
              update_ok g x y w Hg Hwf HP)
    as (arm2 & m2 & n2 & Hpull2 & Hm2 & HN2 & w2 & Hrun2
        & Hpe & Hsmv & Hspp & Hmv' & Hst').
  assert (arm2 = arm) by congruence. subst arm2.
  assert (n2 = n) by congruence. subst n2.
  assert (w2 = w') by congruence. subst w2.
  assert (Hn : 0 <= n) by (rewrite Forall_lookup in Hnn; exact (Hnn arm n HN)).
  exists w'. split; [exact Hrun|]. split; [|auto].
  unfold bookkept. rewrite Hni, HN', Ha', Hsmv, Hspp, Hmv', Hst'.
  split; [lia|]. split; [apply Forall_insert; [exact Hnn|lia]|].
  split; [|split; [|split]].
  - intros a Ha0. destruct (decide (a = arm)) as [->|Hne].
    + rewrite list_lookup_insert_eq in Ha0 by (eapply lookup_lt_Some; eauto).
      injection Ha0 as Ha0. lia.
    + rewrite list_lookup_insert_ne in Ha0 by congruence.
      rewrite list_lookup_insert_ne by congruence. exact (Hzero a Ha0).
  - destruct (save_metric_values (self w)); [|exact Hmv].
    rewrite length_app. simpl. lia.
  - destruct (save_percentage_pulled (self w)); [|exact Hst].
    rewrite length_app. simpl. lia.
  - destruct (save_percentage_pulled (self w)); [|exact Hsnap].
    apply Forall_app. split; [exact Hsnap|].
    constructor; [|constructor].
    rewrite sum_R_shares. apply Rinv_r. intros H0. apply eq_IZR in H0.
    rewrite (np_sum_insert _ _ n) in H0 by exact HN. lia.
Qed.

Lemma add_models_bookkept (a : PyArg) (w w' : World E) :
  sound P w -> bookkept (self w) -> Bandit.add_models a w = Ok (tt, w') ->
  bookkept (self w')
  /\ print_every (self w') = print_every (self w)
  /\ save_metric_values (self w') = save_metric_values (self w)
  /\ save_percentage_pulled (self w') = save_percentage_pulled (self w).
Proof.
  intros ((_ & _ & HlN & Hla & _) & _) (Hni0 & Hnn & Hzero & Hmv & Hst & Hsnap)
    Hrun.
  apply add_models_inv in Hrun as (l & -> & Hrun).
  rewrite add_models_list in Hrun. injection Hrun as <-.
  split; [|simpl; auto].
  unfold bookkept. simpl.
  split; [exact Hni0|]. split.
  { apply Forall_app. split; [exact Hnn|]. apply Forall_replicate. lia. }
  split; [|auto].
  intros arm Harm.
  destruct (decide (arm < length (_N (self w)))%nat) as [Hold|Hnew].
  - rewrite lookup_app_l in Harm by exact Hold.
    rewrite lookup_app_l by lia. exact (Hzero arm Harm).
  - rewrite lookup_app_r in Harm by lia.
    apply lookup_replicate in Harm as [_ Hlt].
    rewrite lookup_app_r by lia. apply lookup_replicate. split; [reflexivity|lia].
Qed.

Lemma reachable_bookkept (s0 : Self E) (w : World E) :
  sound P (mkWorld s0 []) -> bookkept s0 ->
  reachable (Bandit.learn_one _pull_arm _update_arm)
    (Bandit.predict_one _pull_arm _pred_func) s0 w ->
  bookkept (self w)
  /\ print_every (self w) = print_every s0
  /\ save_metric_values (self w) = save_metric_values s0
  /\ save_percentage_pulled (self w) = save_percentage_pulled s0.
Proof.
  intros H0 Hb0 Hreach.
  induction Hreach as [|w g x y w' Hr IH Hg Hrun|w g x yp w' Hr IH Hg Hrun
                       |w a w' Hr IH Hrun].
  - simpl. auto.
  - pose proof (reachable_sound _ _ _ _ _ pull_ok update_ok s0 w H0 Hr) as Hs.
    destruct IH as (Hb & Hc1 & Hc2 & Hc3).
    destruct (learn_one_bookkept g x y w Hg Hs Hb)
      as (w1 & Hrun1 & Hb1 & Hd1 & Hd2 & Hd3).
    assert (w1 = w') by congruence. subst w1.
    split; [exact Hb1|]. rewrite Hd1, Hd2, Hd3. auto.
  - pose proof (reachable_sound _ _ _ _ _ pull_ok update_ok s0 w H0 Hr) as Hs.
    destruct (predict_one_frame _ _ _ pull_ok g x w w' yp Hg Hs Hrun)
      as [Hself _].
    rewrite Hself. exact IH.
  - pose proof (reachable_sound _ _ _ _ _ pull_ok update_ok s0 w H0 Hr) as Hs.
    destruct IH as (Hb & Hc1 & Hc2 & Hc3).
    destruct (add_models_bookkept a w w' Hs Hb Hrun) as (Hb1 & Hd1 & Hd2 & Hd3).
    split; [exact Hb1|]. rewrite Hd1, Hd2, Hd3. auto.
Qed.

Lemma reachable_fixed_reachable (s0 : Self E) (w : World E) :
  reachable_fixed (Bandit.learn_one _pull_arm _update_arm)
    (Bandit.predict_one _pull_arm _pred_func) s0 w ->
  reachable (Bandit.learn_one _pull_arm _update_arm)
    (Bandit.predict_one _pull_arm _pred_func) s0 w.
Proof.
  induction 1; [constructor|eapply reach_learn; eauto|eapply reach_predict; eauto].
Qed.

End Bookkeeping.

(** ** What the constructors build *)

Section Built.
Context `{Collaborators}.

Lemma fresh_bookkept {E : Type} (s : Self E) :
  fresh_stats s -> _n_iter s = 0 -> metric_values s = [] ->
  store_percentage_pulled s = [] -> bookkept s.
Proof.
  intros [HN Ha] Hn Hmv Hst. unfold bookkept. rewrite HN, Ha, Hn, Hmv, Hst.
  split; [lia|]. split; [apply Forall_replicate; lia|].
  split.
  - intros arm Harm. apply lookup_replicate in Harm as [_ Hlt].
    apply lookup_replicate. auto.
  - simpl. split; [destruct (save_metric_values s); reflexivity|].
    split; [destruct (save_percentage_pulled s); reflexivity|constructor].
Qed.

Lemma eg_init_built (eps : R) (decay : option R) (kw : Bandit.kwargs)
    (s : Self EpsilonGreedyBandit.attrs) :
  EpsilonGreedyBandit.__init__ eps decay kw = Ok s ->
  bookkept s /\ configured kw s
  /\ metric s = Bandit.kw_metric kw
  /\ reward_scaler s
     = Some (default StandardScaler (Bandit.kw_reward_scaler kw))
  /\ _n_arms s = length (Bandit.kw_models kw).
Proof.
  intros Hinit. pose proof Hinit as Hinit'.
  apply eg_init_sound in Hinit' as (_ & Hfresh & Hn & _).
  unfold EpsilonGreedyBandit.__init__ in Hinit.
  destruct (bandit_init_cases kw) as [[_ Hr]|(_ & _ & Hr)];
    rewrite Hr in Hinit; [discriminate|].
  assert (Hfields : metric_values s = [] /\ store_percentage_pulled s = []
                    /\ configured kw s /\ metric s = Bandit.kw_metric kw
                    /\ reward_scaler s
                       = Some (default StandardScaler (Bandit.kw_reward_scaler kw))
                    /\ _n_arms s = length (Bandit.kw_models kw)).
  { destruct (Bandit.kw_reward_scaler kw); simpl in Hinit;
      injection Hinit as <-; unfold configured; simpl; auto 10. }
  destruct Hfields as (Hmv & Hst & Hcfg & Hmt & Hsc & Hna).
  split; [exact (fresh_bookkept s Hfresh Hn Hmv Hst)|auto].
Qed.

Lemma ucb_init_built (delta : option R) (explore : Z) (kw : Bandit.kwargs)
    (s : Self UCBBandit.attrs) :
  UCBBandit.__init__ delta explore kw = Ok s ->
  bookkept s /\ configured kw s
  /\ metric s = Bandit.kw_metric kw
  /\ reward_scaler s
     = Some (default StandardScaler (Bandit.kw_reward_scaler kw))
  /\ _n_arms s = length (Bandit.kw_models kw).
Proof.
  intros Hinit. pose proof Hinit as Hinit'.
  apply ucb_init_sound in Hinit' as (_ & Hfresh & Hn & _).
  rewrite ucb_init_cases in Hinit.
  destruct (bandit_init_cases kw) as [[_ Hr]|(_ & _ & Hr)];
    rewrite Hr in Hinit; [discriminate|].
  assert (Hfields : metric_values s = [] /\ store_percentage_pulled s = []
                    /\ configured kw s /\ metric s = Bandit.kw_metric kw
                    /\ reward_scaler s
                       = Some (default StandardScaler (Bandit.kw_reward_scaler kw))
                    /\ _n_arms s = length (Bandit.kw_models kw)).
  { destruct delta as [d|];
      [destruct (Rge_dec d 1); [discriminate|];
       destruct (Rle_dec d 0); [discriminate|]|];
      injection Hinit as <-; unfold configured; simpl; auto 10. }
  destruct Hfields as (Hmv & Hst & Hcfg & Hmt & Hsc & Hna).
  split; [exact (fresh_bookkept s Hfresh Hn Hmv Hst)|auto].
Qed.

End Built.

(** ** Constructors, best model and growth of the ensemble *)

Section Static.
Context `{Collaborators}.

(** [Bandit.__init__] returns an object exactly when it is given at least two
    models, all of which the metric works with; every other call raises
    [ValueError]. The object holds the models and the metric it was given,
    one zero pull count and one zero average per model, a zero iteration
    counter and empty history buffers. *)
Theorem bandit_init_accepts_iff (kw : Bandit.kwargs) :
  ((exists s, Bandit.__init__ kw = Ok s)
   <-> (2 <= length (Bandit.kw_models kw))%nat
       /\ Forall (fun m => works_with (Bandit.kw_metric kw) m = true)
            (Bandit.kw_models kw))
  /\ (forall e, Bandit.__init__ kw = Raise e -> e = ValueError)
  /\ (forall s, Bandit.__init__ kw = Ok s ->
        models s = Bandit.kw_models kw
        /\ metric s = Bandit.kw_metric kw
        /\ reward_scaler s = Bandit.kw_reward_scaler kw
        /\ _n_arms s = length (Bandit.kw_models kw)
        /\ _n_iter s = 0
        /\ _N s = replicate (length (Bandit.kw_models kw)) 0
        /\ _average_reward s = replicate (length (Bandit.kw_models kw)) 0%R
        /\ metric_values s = [] /\ store_percentage_pulled s = []).
Proof.
  destruct (bandit_init_cases kw) as [[Hbad Hr]|(Hlen & Hall & Hr)]; rewrite Hr.
  - split; [|split; [intros e He; congruence|intros s Hs; discriminate]].
    split; [intros [s Hs]; discriminate|].
    intros [Hlen Hall]. exfalso. destruct Hbad as [Hle|Hf]; [lia|].
    rewrite Forall_forall in Hall.
    assert (Ht : forallb (works_with (Bandit.kw_metric kw)) (Bandit.kw_models kw)
                 = true).
    { apply forallb_forall. intros m Hm. apply Hall, list_elem_of_In, Hm. }
    congruence.
  - split; [|split; [intros e He; discriminate|]].
    + split; [intros _|eauto]. split; [exact Hlen|].
      rewrite Forall_forall. intros m Hm.
      rewrite forallb_forall in Hall. apply Hall, list_elem_of_In, Hm.
    + intros s Hs. injection Hs as <-. simpl. auto 10.
Qed.


End Static.

Section Ensemble.
Context `{Collaborators} {E : Type}.

Lemma first_max_argmax (a : list R) (i : nat) :
  first_max a i -> np.argmax a = Ok i.
Proof.
  intros Hi.
  destruct (argmax_first_max a) as (j & Hj & Hmax).
  { intros Hnil. apply first_max_lt_length in Hi. rewrite Hnil in Hi.
    simpl in Hi. lia. }
  rewrite Hj. f_equal. exact (first_max_unique a j i Hmax Hi).
Qed.

Lemma best_model_idx_run (w : World E) (i : nat) :
  np.argmax (_average_reward (self w)) = Ok i ->
  Bandit._best_model_idx w = Ok (i, w).
Proof.
  intros Hi. unfold Bandit._best_model_idx. rewrite bind_get.
  unfold lift. rewrite Hi. reflexivity.
Qed.

(** [_best_model_idx] is the first index at which [_average_reward] is
    maximal and [best_model] is the model stored at that index; neither
    changes the object. On an object without arms both raise [ValueError],
    and when no reward has been recorded yet (all averages 0.0) the best
    model is the first one. *)
Theorem best_model_is_first_max (w : World E) :
  (_average_reward (self w) <> [] ->
   length (models (self w)) = length (_average_reward (self w)) ->
   exists i m,
     Bandit._best_model_idx w = Ok (i, w)
     /\ first_max (_average_reward (self w)) i
     /\ models (self w) !! i = Some m
     /\ Bandit.best_model w = Ok (m, w))
  /\ (_average_reward (self w) = [] ->
      Bandit._best_model_idx w = Raise ValueError
      /\ Bandit.best_model w = Raise ValueError)
  /\ (fresh_stats (self w) -> (0 < _n_arms (self w))%nat ->
      Bandit._best_model_idx w = Ok (0%nat, w)).
Proof.
  split; [|split].
  - intros Hne Hlen.
    destruct (argmax_first_max _ Hne) as (i & Hi & Hmax).
    destruct (lookup_lt_is_Some_2 (models (self w)) i) as [m Hm].
    { apply first_max_lt_length in Hmax. lia. }
    exists i, m. split; [exact (best_model_idx_run w i Hi)|].
    split; [exact Hmax|]. split; [exact Hm|].
    unfold Bandit.best_model.
    rewrite (bind_run _ _ _ _ _ (best_model_idx_run w i Hi)).
    exact (getitem_ok w i m Hm).
  - intros Hnil. unfold Bandit.best_model, Bandit._best_model_idx.
    unfold bind, get, lift. rewrite Hnil. split; reflexivity.
  - intros [_ Ha] Hn. apply best_model_idx_run, first_max_argmax.
    rewrite Ha. exists 0%R. split; [apply lookup_replicate; auto|].
    split.
    + intros j x Hj. apply lookup_replicate in Hj as [-> _]. lra.
    + intros j x Hj. lia.
Qed.

(** Adding arms can change the best model: the new arms start with average
    0.0, so the best index stays where it was when the best average is not
    negative, and moves to the first new arm when every average is
    negative. *)
Theorem add_models_best_model (w w' : World E) (l : list Model) (i : nat)
    (m : R) :
  first_max (_average_reward (self w)) i ->
  _average_reward (self w) !! i = Some m ->
  l <> [] ->
  Bandit.add_models (PyList l) w = Ok (tt, w') ->
  ((0 <= m)%R -> Bandit._best_model_idx w' = Ok (i, w'))
  /\ ((m < 0)%R ->
      Bandit._best_model_idx w' = Ok (length (_average_reward (self w)), w')).
Proof.
  intros (m' & Hm' & Hle & Hlt) Hm Hl Hrun.
  assert (m' = m) by congruence. subst m'.
  rewrite add_models_list in Hrun. injection Hrun as <-.
  assert (Hk : (0 < length l)%nat) by (destruct l; [congruence|simpl; lia]).
  assert (Hi : (i < length (_average_reward (self w)))%nat)
    by (eapply lookup_lt_Some; eauto).
  split; intros Hsign; apply best_model_idx_run, first_max_argmax; simpl.
  - exists m. split; [rewrite lookup_app_l by exact Hi; exact Hm|]. split.
    + intros j x Hj. apply lookup_app_Some in Hj as [Hj|[_ Hj]]; [eauto|].
      apply lookup_replicate in Hj as [-> _]. exact Hsign.
    + intros j x Hji Hj. rewrite lookup_app_l in Hj by lia. eauto.
  - exists 0%R. split.
    + rewrite lookup_app_r by lia. rewrite Nat.sub_diag.
      apply lookup_replicate. auto.
    + split.
      * intros j x Hj. apply lookup_app_Some in Hj as [Hj|[_ Hj]].
        -- specialize (Hle j x Hj). lra.
        -- apply lookup_replicate in Hj as [-> _]. lra.
      * intros j x Hjl Hj. rewrite lookup_app_l in Hj by lia.
        specialize (Hle j x Hj). lra.
Qed.

(** Two calls of [add_models] in a row are one call with the concatenated
    list. *)
Theorem add_models_twice (w : World E) (l1 l2 : list Model) :
  bind (Bandit.add_models (PyList l1)) (fun _ => Bandit.add_models (PyList l2)) w
  = Bandit.add_models (PyList (l1 ++ l2)) w.
Proof.
  rewrite (bind_run _ _ _ _ _ (add_models_list l1 w)).
  rewrite !add_models_list. simpl.
  rewrite !length_app, !replicate_add, <- !app_assoc, Nat.add_assoc.
  reflexivity.
Qed.

End Ensemble.

(** ** Epsilon-greedy: extreme and constant epsilon *)

Section EpsilonGreedyMore.
Context `{Collaborators}.
Import EpsilonGreedyBandit.

(** With [epsilon >= 1] every call of [_pull_arm] explores: the arm is the
    index [np.random.choice] drew among all arms, whatever the averages are.
    With a negative [epsilon] every call is greedy. *)
Theorem eg_pull_arm_extremes (w : World attrs) (g : Rng) :
  rng_ok g -> (0 < _n_arms (self w))%nat ->
  ((1 <= epsilon (ext (self w)))%R ->
     _pull_arm g w = Ok (choice g (_n_arms (self w)), w)
     /\ (choice g (_n_arms (self w)) < _n_arms (self w))%nat)
  /\ ((epsilon (ext (self w)) < 0)%R ->
      _pull_arm g w = lift (np.argmax (_average_reward (self w))) w).
Proof.
  intros [Hu Hch] Hn. split.
  - intros Heps. rewrite eg_pull_arm_explore by lra.
    unfold lift, random.choice_int.
    destruct (decide (_n_arms (self w) = 0%nat)) as [H0|_]; [lia|].
    split; [reflexivity|apply Hch, Hn].
  - intros Heps. apply eg_pull_arm_greedy. lra.
Qed.




End EpsilonGreedyMore.

(** ** Facts that hold of every object a caller can reach *)


Section Growth.
Context `{Collaborators} {E : Type}.
Variable _pull_arm : Rng -> Cmd E nat.
Variable _update_arm : nat -> R -> Cmd E unit.
Variable _pred_func : Model -> X -> Y.
Variable P : E -> Prop.
Variable update_ext : Self E -> E.

Hypothesis pull_ok : forall g w,
  rng_ok g -> well_formed (self w) -> P (ext (self w)) ->
  exists arm, _pull_arm g w = Ok (arm, w) /\ (arm < _n_arms (self w))%nat.
Hypothesis update_ok : forall arm r w,
  P (ext (self w)) ->
  _update_arm arm r w
  = Ok (tt, mkWorld (set_ext (update_ext (self w)) (self w)) (trace w))
  /\ P (update_ext (self w)).

Lemma reachable_n_arms (s0 : Self E) (w : World E) :
  sound P (mkWorld s0 []) ->
  reachable (Bandit.learn_one _pull_arm _update_arm)
    (Bandit.predict_one _pull_arm _pred_func) s0 w ->
  (_n_arms s0 <= _n_arms (self w))%nat.
Proof.
  intros H0 Hreach.
  induction Hreach as [|w g x y w' Hr IH Hg Hrun|w g x yp w' Hr IH Hg Hrun
                       |w a w' Hr IH Hrun].
  - simpl. lia.
  - pose proof (reachable_sound _ _ _ _ _ pull_ok update_ok s0 w H0 Hr)
      as (Hwf & HP & _).
    destruct (learn_one_spec _ _ _ _ pull_ok update_ok g x y w Hg Hwf HP)
      as (arm & m & sc & n & avg & _ & _ & _ & _ & _ & _ & w1 & Hrun1 & Hna & _).
    assert (w1 = w') by congruence. subst w1. lia.
  - pose proof (reachable_sound _ _ _ _ _ pull_ok update_ok s0 w H0 Hr) as Hs.
    destruct (predict_one_frame _ _ _ pull_ok g x w w' yp Hg Hs Hrun)
      as [Hself _].
    rewrite Hself. exact IH.
  - apply add_models_inv in Hrun as (l & -> & Hrun).
    rewrite add_models_list in Hrun. injection Hrun as <-. simpl. lia.
Qed.

Lemma reachable_fixed_n_arms (s0 : Self E) (w : World E) :
  sound P (mkWorld s0 []) ->
  reachable_fixed (Bandit.learn_one _pull_arm _update_arm)
    (Bandit.predict_one _pull_arm _pred_func) s0 w ->
  _n_arms (self w) = _n_arms s0.
Proof.
  intros H0 Hreach.
  induction Hreach as [|w g x y w' Hr IH Hg Hrun|w g x yp w' Hr IH Hg Hrun].
  - reflexivity.
  - pose proof (reachable_sound _ _ _ _ _ pull_ok update_ok s0 w H0
                  (reachable_fixed_reachable _ _ _ s0 w Hr)) as (Hwf & HP & _).
    destruct (learn_one_spec _ _ _ _ pull_ok update_ok g x y w Hg Hwf HP)
      as (arm & m & sc & n & avg & _ & _ & _ & _ & _ & _ & w1 & Hrun1 & Hna & _).
    assert (w1 = w') by congruence. subst w1. lia.
  - pose proof (reachable_sound _ _ _ _ _ pull_ok update_ok s0 w H0
                  (reachable_fixed_reachable _ _ _ s0 w Hr)) as Hs.
    destruct (predict_one_frame _ _ _ pull_ok g x w w' yp Hg Hs Hrun)
      as [Hself _].
    rewrite Hself. exact IH.
Qed.

(** One cycle, read off [learn_one_spec]. *)
Lemma cycle_updates_chosen_arm (g : Rng) (x : X) (y : Y) (w : World E) :
  rng_ok g -> sound P w ->
  exists w' arm m sc,
    Bandit.learn_one _pull_arm _update_arm g x y w = Ok (tt, w')
    /\ _pull_arm g w = Ok (arm, w)
    /\ models (self w) !! arm = Some m
    /\ reward_scaler (self w) = Some sc
    /\ updates_chosen_arm arm m x y (self w) (self w')
    /\ reward_scaler (self w') = Some (snd (cycle_reward (self w) m sc x y))
    /\ history (trace w')
       = history (trace w) ++ [(arm, fst (cycle_reward (self w) m sc x y))]
    /\ trace w' = trace w
                  ++ cycle_events arm (_n_iter (self w) + 1)
                       (fst (cycle_reward (self w) m sc x y))
                  ++ bookkeeping_events (self w).
Proof.
  intros Hg (Hwf & HP & _).
  destruct (learn_one_spec _ _ _ _ pull_ok update_ok g x y w Hg Hwf HP)
    as (arm & m & sc & n & avg & Hpull & Harm & Hm & Hsc & HN & Ha & w' & Hrun
        & Hna & Hms & Hmt & Hsc' & Hni & HN' & Ha' & _ & _ & Htrace).
  exists w', arm, m, sc.
  split; [exact Hrun|]. split; [exact Hpull|]. split; [exact Hm|].
  split; [exact Hsc|]. split; [|split; [exact Hsc'|split; [|exact Htrace]]].
  - unfold updates_chosen_arm. rewrite Hms, Hmt, Hna, Hni, HN', Ha'.
    rewrite length_insert.
    split; [apply list_lookup_insert_eq; eapply lookup_lt_Some; eauto|].
    do 4 (split; [reflexivity|]). split.
    + exists n. split; [exact HN|].
      apply list_lookup_insert_eq. eapply lookup_lt_Some; eauto.
    + intros j Hj. rewrite !list_lookup_insert_ne by congruence. auto.
  - rewrite Htrace, !history_app.
    assert (Hb : history (bookkeeping_events (self w)) = []).
    { unfold bookkeeping_events.
      destruct (print_every (self w)) as [p|];
        [destruct (negb (p =? 0)); [destruct (_ mod p =? 0)|]|];
        destruct (save_percentage_pulled (self w));
        destruct (save_metric_values (self w)); reflexivity. }
    rewrite Hb, app_nil_r. reflexivity.
Qed.

End Growth.

Section Runs.
Context `{Collaborators}.

Lemma eg_reachable_all (eps : R) (decay : option R) (kw : Bandit.kwargs)
    (s0 : Self EpsilonGreedyBandit.attrs) (w : World EpsilonGreedyBandit.attrs) :
  EpsilonGreedyBandit.__init__ eps decay kw = Ok s0 ->
  reachable EpsilonGreedyRegressor.learn_one
    EpsilonGreedyRegressor.predict_one s0 w ->
  sound eg_attrs_ok w /\ bookkept (self w) /\ configured kw (self w)
  /\ tracked w /\ (length (Bandit.kw_models kw) <= _n_arms (self w))%nat.
Proof.
  intros Hinit Hreach.
  destruct (eg_init_built eps decay kw s0 Hinit)
    as (Hb0 & (Hc1 & Hc2 & Hc3) & _ & _ & Hna).
  apply eg_init_sound in Hinit as (H0 & Hfresh & _).
  destruct (reachable_bookkept _ _ _ _ _ eg_pull_ok eg_update_ok s0 w H0 Hb0
              Hreach) as (Hb & Hd1 & Hd2 & Hd3).
  split; [exact (reachable_sound _ _ _ _ _ eg_pull_ok eg_update_ok s0 w H0 Hreach)|].
  split; [exact Hb|].
  split; [unfold configured; rewrite Hd1, Hd2, Hd3; auto|].
  split; [exact (reachable_tracked _ _ _ _ _ eg_pull_ok eg_update_ok s0 w H0
                   Hfresh Hreach)|].
  rewrite <- Hna.
  exact (reachable_n_arms _ _ _ _ _ eg_pull_ok eg_update_ok s0 w H0 Hreach).
Qed.

Lemma ucb_reachable_all (delta : option R) (explore : Z) (kw : Bandit.kwargs)
    (s0 : Self UCBBandit.attrs) (w : World UCBBandit.attrs) :
  UCBBandit.__init__ delta explore kw = Ok s0 ->
  reachable UCBRegressor.learn_one UCBRegressor.predict_one s0 w ->
  sound ucb_attrs_ok w /\ bookkept (self w) /\ configured kw (self w)
  /\ tracked w /\ (length (Bandit.kw_models kw) <= _n_arms (self w))%nat.
Proof.
  intros Hinit Hreach.
  destruct (ucb_init_built delta explore kw s0 Hinit)
    as (Hb0 & (Hc1 & Hc2 & Hc3) & _ & _ & Hna).
  apply ucb_init_sound in Hinit as (H0 & Hfresh & _).
  destruct (reachable_bookkept _ _ _ _ _ ucb_pull_ok ucb_update_ok s0 w H0 Hb0
              Hreach) as (Hb & Hd1 & Hd2 & Hd3).
  split; [exact (reachable_sound _ _ _ _ _ ucb_pull_ok ucb_update_ok s0 w H0
                   Hreach)|].
  split; [exact Hb|].
  split; [unfold configured; rewrite Hd1, Hd2, Hd3; auto|].
  split; [exact (reachable_tracked _ _ _ _ _ ucb_pull_ok ucb_update_ok s0 w H0
                   Hfresh Hreach)|].
  rewrite <- Hna.
  exact (reachable_n_arms _ _ _ _ _ ucb_pull_ok ucb_update_ok s0 w H0 Hreach).
Qed.





End Runs.

(** ** What one cycle does *)


Section Cycle.
Context `{Collaborators}.


(** The reward of a cycle. The reward recorded for the chosen arm is computed
    from the prediction its model made before being trained and from the
    metric after its update: the metric value, negated unless bigger is
    better, is first learnt by the reward scaler and then transformed by the
    scaler that has learnt it; that scaler is the one the object keeps. For
    both regressors. *)
Theorem learn_one_reward_update_then_transform :
  (forall eps decay kw s0 w g x y,
     EpsilonGreedyBandit.__init__ eps decay kw = Ok s0 ->
     reachable EpsilonGreedyRegressor.learn_one
       EpsilonGreedyRegressor.predict_one s0 w ->
     rng_ok g ->
     exists w' arm m sc,
       EpsilonGreedyRegressor.learn_one g x y w = Ok (tt, w')
       /\ models (self w) !! arm = Some m
       /\ reward_scaler (self w) = Some sc
       /\ reward_scaler (self w') = Some (snd (cycle_reward (self w) m sc x y))
       /\ history (trace w')
          = history (trace w) ++ [(arm, fst (cycle_reward (self w) m sc x y))])
  /\ (forall delta explore kw s0 w g x y,
        UCBBandit.__init__ delta explore kw = Ok s0 ->
        reachable UCBRegressor.learn_one UCBRegressor.predict_one s0 w ->
        rng_ok g ->
        exists w' arm m sc,
          UCBRegressor.learn_one g x y w = Ok (tt, w')
          /\ models (self w) !! arm = Some m
          /\ reward_scaler (self w) = Some sc
          /\ reward_scaler (self w')
             = Some (snd (cycle_reward (self w) m sc x y))
          /\ history (trace w')
             = history (trace w)
               ++ [(arm, fst (cycle_reward (self w) m sc x y))]).
Proof.
  split.
  - intros eps decay kw s0 w g x y Hinit Hreach Hg.
    destruct (eg_reachable_all eps decay kw s0 w Hinit Hreach) as (Hs & _).
    destruct (cycle_updates_chosen_arm _ _ _ _ eg_pull_ok eg_update_ok g x y w
                Hg Hs)
      as (w' & arm & m & sc & Hrun & _ & Hm & Hsc & _ & Hsc' & Hhist & _).
    exists w', arm, m, sc. auto.
  - intros delta explore kw s0 w g x y Hinit Hreach Hg.
    destruct (ucb_reachable_all delta explore kw s0 w Hinit Hreach) as (Hs & _).
    destruct (cycle_updates_chosen_arm _ _ _ _ ucb_pull_ok ucb_update_ok g x y w
                Hg Hs)
      as (w' & arm & m & sc & Hrun & _ & Hm & Hsc & _ & Hsc' & Hhist & _).
    exists w', arm, m, sc. auto.
Qed.


End Cycle.

(** ** UCB: the exploration phase and the bound *)




Section UCBMore.
Context `{Collaborators}.
Import UCBBandit.





(** Arms added with [add_models] are explored first: on a UCB object with
    [explore_each_arm >= 0], the next [_pull_arm] after a non-empty
    [add_models] returns an under-pulled arm, and when no arm was
    under-pulled before, it returns one of the new arms. *)
Theorem ucb_explores_added_arms (w w' : World attrs) (l : list Model)
    (g : Rng) :
  sound ucb_attrs_ok w ->
  0 <= explore_each_arm (ext (self w)) ->
  l <> [] ->
  Bandit.add_models (PyList l) w = Ok (tt, w') ->
  rng_ok g ->
  exists arm,
    _pull_arm g w' = Ok (arm, w')
    /\ under_pulled (self w') arm
    /\ ((forall a, ~ under_pulled (self w) a) ->
        (_n_arms (self w) <= arm < _n_arms (self w'))%nat).
Proof.
  intros ((_ & _ & HlN & _) & _) Hexp Hl Hrun Hg.
  rewrite add_models_list in Hrun. injection Hrun as <-.
  assert (Hk : (0 < length l)%nat) by (destruct l; [congruence|simpl; lia]).
  set (w' := mkWorld _ (trace w)).
  assert (Hnew : under_pulled (self w') (length (_N (self w)))).
  { exists 0. split; [|exact Hexp]. simpl.
    rewrite lookup_app_r by lia. rewrite Nat.sub_diag.
    apply lookup_replicate. auto. }
  destruct (ucb_pull_arm_explore g w' Hg (ex_intro _ _ Hnew))
    as (cands & arm & _ & Hel & Harm & Hpull).
  exists arm. split; [exact Hpull|].
  assert (Hin : arm ∈ cands) by (eapply list_elem_of_lookup_2; eauto).
  apply Hel in Hin as Hunder. split; [exact Hunder|].
  intros Hno. destruct Hunder as (n & Hn & Hle). simpl in Hn, Hle |- *.
  pose proof (lookup_lt_Some _ _ _ Hn) as Hlt.
  rewrite length_app, length_replicate in Hlt.
  split; [|lia].
  destruct (decide (arm < length (_N (self w)))%nat) as [Hold|Hge]; [|lia].
  exfalso. rewrite lookup_app_l in Hn by exact Hold.
  apply (Hno arm). exists n. auto.
Qed.




End UCBMore.

(** ** Ranges of epsilon and of the averages *)



Section Ranges.
Context `{Collaborators}.



End Ranges.

(** ** The further properties at concrete inputs *)

Lemma demo_eg_reach_init (eps : R) (decay : option R) :
  reachable (@EpsilonGreedyRegressor.learn_one Demo.collab)
    (@EpsilonGreedyRegressor.predict_one Demo.collab)
    (Demo.eg_fresh eps decay [1; 5; 3])
    (mkWorld (Demo.eg_fresh eps decay [1; 5; 3]) []).
Proof. constructor. Qed.


Lemma bandit_init_accepts_iff_witness :
  let kw := Demo.kw [1; 5; 3] in
  (2 <= length (Bandit.kw_models kw))%nat
  /\ Forall (fun m => @works_with Demo.collab (Bandit.kw_metric kw) m = true)
       (Bandit.kw_models kw)
  /\ exists s, Bandit.__init__ kw = Ok s.
Proof.
  intros kw.
  assert (Hlen : (2 <= length (Bandit.kw_models kw))%nat) by (simpl; lia).
  assert (Hall : Forall (fun m => @works_with Demo.collab (Bandit.kw_metric kw) m
                                  = true) (Bandit.kw_models kw))
    by (repeat constructor).
  split; [exact Hlen|]. split; [exact Hall|].
  exact (proj2 (proj1 (@bandit_init_accepts_iff Demo.collab kw))
           (conj Hlen Hall)).
Defined.


Lemma best_model_is_first_max_witness :
  let w := mkWorld (Demo.eg_fresh 0 None [1; 5; 3]) [] in
  fresh_stats (self w) /\ (0 < _n_arms (self w))%nat
  /\ Bandit._best_model_idx w = Ok (0%nat, w).
Proof.
  intros w.
  assert (Hf : fresh_stats (self w)) by (split; reflexivity).
  assert (Hn : (0 < _n_arms (self w))%nat) by (simpl; lia).
  split; [exact Hf|]. split; [exact Hn|].
  exact (proj2 (proj2 (best_model_is_first_max w)) Hf Hn).
Defined.

Lemma demo_ucb_pulled_first_max :
  first_max (_average_reward Demo.ucb_pulled) 1.
Proof.
  exists 1%R. split; [reflexivity|]. split.
  - intros [|[|[|j]]] x Hj; simpl in Hj; try discriminate;
      injection Hj as <-; lra.
  - intros [|j] x Hlt Hj; [|lia]. simpl in Hj. injection Hj as <-. lra.
Qed.

Lemma add_models_best_model_witness :
  let w := mkWorld Demo.ucb_pulled [] in
  exists w',
    first_max (_average_reward (self w)) 1
    /\ _average_reward (self w) !! 1%nat = Some 1%R
    /\ Bandit.add_models (@PyList Demo.collab [7]) w = Ok (tt, w')
    /\ ((0 <= 1)%R -> Bandit._best_model_idx w' = Ok (1%nat, w'))
    /\ ((1 < 0)%R ->
        Bandit._best_model_idx w'
        = Ok (length (_average_reward (self w)), w')).
Proof.
  intros w. eexists.
  assert (Hne : [7] <> ([] : list (@Model Demo.collab))) by discriminate.
  split; [exact demo_ucb_pulled_first_max|]. split; [reflexivity|].
  split; [apply add_models_list|].
  exact (add_models_best_model w _ ([7] : list (@Model Demo.collab)) 1%nat 1%R
           demo_ucb_pulled_first_max eq_refl Hne
           (add_models_list ([7] : list (@Model Demo.collab)) w)).
Defined.

Lemma eg_pull_arm_extremes_witness :
  let w := mkWorld (Demo.eg_fresh 1 None [1; 5; 3]) [] in
  let g := Demo.rng_last (1 / 2) in
  rng_ok g /\ (0 < _n_arms (self w))%nat
  /\ (1 <= EpsilonGreedyBandit.epsilon (ext (self w)))%R
  /\ EpsilonGreedyBandit._pull_arm g w = Ok (choice g (_n_arms (self w)), w)
  /\ (choice g (_n_arms (self w)) < _n_arms (self w))%nat.
Proof.
  intros w g.
  assert (Hg : rng_ok g) by exact (demo_rng_last_ok _ demo_half).
  assert (Hn : (0 < _n_arms (self w))%nat) by (simpl; lia).
  assert (He : (1 <= EpsilonGreedyBandit.epsilon (ext (self w)))%R)
    by (simpl; lra).
  split; [exact Hg|]. split; [exact Hn|]. split; [exact He|].
  exact (proj1 (eg_pull_arm_extremes w g Hg Hn) He).
Defined.







Lemma learn_one_reward_update_then_transform_witness :
  let s0 := Demo.eg_fresh 0 None [1; 5; 3] in
  let w := mkWorld s0 [] in
  let g := Demo.rng_last (1 / 2) in
  @EpsilonGreedyBandit.__init__ Demo.collab 0 None (Demo.kw [1; 5; 3]) = Ok s0
  /\ reachable (@EpsilonGreedyRegressor.learn_one Demo.collab)
       (@EpsilonGreedyRegressor.predict_one Demo.collab) s0 w
  /\ rng_ok g
  /\ exists w' arm m sc,
       @EpsilonGreedyRegressor.learn_one Demo.collab g tt 4 w = Ok (tt, w')
       /\ models (self w) !! arm = Some m
       /\ reward_scaler (self w) = Some sc
       /\ reward_scaler (self w') = Some (snd (cycle_reward (self w) m sc tt 4))
       /\ history (trace w')
          = history (trace w) ++ [(arm, fst (cycle_reward (self w) m sc tt 4))].
Proof.
  intros s0 w g.
  assert (Hg : rng_ok g) by exact (demo_rng_last_ok _ demo_half).
  split; [reflexivity|]. split; [apply demo_eg_reach_init|]. split; [exact Hg|].
  exact (proj1 (@learn_one_reward_update_then_transform Demo.collab) 0%R None
           (Demo.kw [1; 5; 3]) s0 w g tt 4 eq_refl (demo_eg_reach_init _ _) Hg).
Defined.



Lemma ucb_explores_added_arms_witness :
  let w := mkWorld Demo.ucb_pulled [] in
  let g := Demo.rng_last (1 / 2) in
  exists w',
    sound ucb_attrs_ok w
    /\ 0 <= UCBBandit.explore_each_arm (ext (self w))
    /\ Bandit.add_models (@PyList Demo.collab [7]) w = Ok (tt, w')
    /\ rng_ok g
    /\ exists arm,
         UCBBandit._pull_arm g w' = Ok (arm, w')
         /\ under_pulled (self w') arm
         /\ ((forall a, ~ under_pulled (self w) a) ->
             (_n_arms (self w) <= arm < _n_arms (self w'))%nat).
Proof.
  intros w g. eexists.
  assert (Hexp : 0 <= UCBBandit.explore_each_arm (ext (self w))) by (simpl; lia).
  assert (Hne : [7] <> ([] : list (@Model Demo.collab))) by discriminate.
  assert (Hg : rng_ok g) by exact (demo_rng_last_ok _ demo_half).
  split; [exact demo_ucb_pulled_sound|]. split; [exact Hexp|].
  split; [apply add_models_list|]. split; [exact Hg|].
  exact (ucb_explores_added_arms w _ ([7] : list (@Model Demo.collab)) g
           demo_ucb_pulled_sound Hexp Hne
           (add_models_list ([7] : list (@Model Demo.collab)) w) Hg).
Defined.




